(** * ims.pca : the PCA model wrapper of gc-ims-tools

    A shallow embedding of [src/ims/pca.py].  The class [PCA_Model] fits a
    scikit-learn PCA on the matrix prepared by its parent class and offers
    three plots.  Python exceptions are an error type, the object [self]
    and matplotlib's global pyplot state are an explicit store threaded
    through the plot methods, and the third-party collaborators
    (numpy float arithmetic, scikit-learn, the parent class, matplotlib's
    tick locator) are interfaces. *)

From Stdlib Require Import ZArith Lia String Ascii Bool Arith List.
From Stdlib Require Import DecimalString DecimalZ QArith Qround Sorted.
Import ListNotations.

Set Implicit Arguments.
Open Scope Z_scope.
Open Scope list_scope.

(** ** Python runtime: exceptions, indexing, slices, ranges, formatting *)

Module Py.

Inductive exn : Type :=
| IndexError        (* sequence or array index out of range *)
| ValueError        (* bad shape, bad column name, length mismatch *)
| KeyError          (* missing key of a pandas row *)
| AttributeError    (* attribute never assigned *)
| RuntimeError      (* colour bar without an image *)
| OSError.          (* style sheet not found *)

Inductive result (A : Type) : Type :=
| Ok (a : A)
| Raise (e : exn).
Arguments Ok {A} a.
Arguments Raise {A} e.

Definition rbind {A B} (r : result A) (k : A -> result B) : result B :=
  match r with
  | Ok a => k a
  | Raise e => Raise e
  end.

(** [for x in xs: out.append(f x)], stopping at the first exception. *)
Fixpoint mapM {A B} (f : A -> result B) (xs : list A) : result (list B) :=
  match xs with
  | [] => Ok []
  | x :: xs' =>
      rbind (f x) (fun y => rbind (mapM f xs') (fun ys => Ok (y :: ys)))
  end.

(** [seq[k]] for a list or a numpy array: a negative [k] counts from the
    end, anything outside [-len, len) raises IndexError. *)
Definition getitem {A} (l : list A) (k : Z) : result A :=
  let n := Z.of_nat (length l) in
  let j := if k <? 0 then k + n else k in
  if (0 <=? j) && (j <? n) then
    match nth_error l (Z.to_nat j) with
    | Some a => Ok a
    | None => Raise IndexError
    end
  else Raise IndexError.

(** [l[1:-1]] *)
Definition slice_1_m1 {A} (l : list A) : list A := removelast (tl l).

(** [range(a, b)] *)
Definition range (a b : Z) : list Z :=
  map (fun k => a + Z.of_nat k) (seq 0 (Z.to_nat (b - a))).

(** [str(k)] for an int, as an f-string prints it. *)
Definition str (k : Z) : string := NilEmpty.string_of_int (Z.to_int k).

(** Lookup in an insertion-ordered table with string keys. *)
Fixpoint assoc {A} (key : string) (l : list (string * A)) : option A :=
  match l with
  | [] => None
  | (k, v) :: l' => if String.eqb key k then Some v else assoc key l'
  end.

(** [d[key] = v]: replaces the value of an existing key in place, appends
    a new key at the end. *)
Fixpoint assoc_set {A} (key : string) (v : A) (l : list (string * A))
  : list (string * A) :=
  match l with
  | [] => [(key, v)]
  | (k, w) :: l' =>
      if String.eqb key k then (k, v) :: l' else (k, w) :: assoc_set key v l'
  end.

End Py.
Import Py.

(** Sequencing of statements that may raise, and later of statements that
    also act on the store. *)
Class Monad (M : Type -> Type) : Type := {
  ret : forall {A}, A -> M A;
  bind : forall {A B}, M A -> (A -> M B) -> M B
}.

#[export] Instance Monad_result : Monad result := {
  ret := @Ok;
  bind := @rbind
}.

Notation "x <- c1 ;; c2" := (bind c1 (fun x => c2))
  (at level 61, c1 at next level, right associativity).
Notation "c1 ;; c2" := (bind c1 (fun _ => c2))
  (at level 61, right associativity).

(** ** numpy float64 arithmetic

    The floating-point operations the module applies.  They are kept as an
    interface: the development only relies on which operation is applied to
    which operands, and (for the scree plot) on the order laws below. *)

Class Float64 : Type := {
  float : Type;
  fdiv : float -> float -> float;          (* x / y *)
  fadd : float -> float -> float;          (* x + y *)
  fmul_int : float -> Z -> float;          (* x * k for an int k *)
  fneg : float -> float;                   (* -x *)
  round_nd : float -> Z -> float;          (* round(x, ndigits) *)
  round_int : float -> Z;                  (* round(x) *)
  int_of : float -> Z;                     (* int(x) *)
  float_of_int : Z -> float;               (* float(k) *)
  fle : float -> float -> Prop;            (* x <= y *)
  fzero : float;                           (* 0.0 *)
  fmt_float : float -> string              (* str(x) in an f-string *)
}.

(** Order laws of the arithmetic that the scree plot needs.  They are
    laws of IEEE 754 binary64 with rounding to nearest: [<=] holds of no
    NaN, so every law only speaks of numbers (and infinities); on these
    [<=] is transitive, the rounded sum of two non-negative numbers is
    not below the first of them, and the rounded product with 100 keeps
    the order, since rounding is monotone. *)
Record Float64_order `{Float64} : Prop := {
  fle_trans : forall a b c, fle a b -> fle b c -> fle a c;
  fadd_nonneg :
    forall a b, fle fzero a -> fle fzero b -> fle a (fadd a b);
  fmul_100_mono : forall a b, fle a b -> fle (fmul_int a 100) (fmul_int b 100)
}.

(** A Python number: tick locations and tick labels are ints or floats. *)
Inductive Num `{Float64} : Type :=
| NInt (z : Z)
| NFloat (x : float).

(** ** numpy arrays

    A 1-D array is a list, a 2-D array the list of its rows (all of one
    length).  A list of rows shows the width of the array only when there
    is a row: the column count of an array without rows is read as 0,
    and what numpy and pandas do with an array of shape (0, n) is outside
    this model.  Every statement below that depends on the width is
    about arrays with a row, or fixes the width by a hypothesis. *)

Module Np.
Section Np.
Context `{Float64}.

Definition ndarray1 : Type := list float.
Definition ndarray2 : Type := list (list float).

Definition nrows (m : ndarray2) : nat := length m.
Definition ncols (m : ndarray2) : nat :=
  match m with
  | [] => 0%nat
  | r :: _ => length r
  end.

Definition has_shape (m : ndarray2) (r c : nat) : Prop :=
  length m = r /\ Forall (fun row => length row = c) m.

Fixpoint zip_with (f : float -> float -> float) (a b : list float)
  : list float :=
  match a, b with
  | x :: a', y :: b' => f x y :: zip_with f a' b'
  | _, _ => []
  end.

(** One row of [a / w] under numpy broadcasting of shapes (k, n) and
    (m,): equal lengths divide position by position, a length of 1 on
    either side is stretched, any other pair of lengths is an error. *)
Definition divide_row (row w : list float) : result (list float) :=
  if (length row =? length w)%nat then Ok (zip_with fdiv row w)
  else match w, row with
       | [y], _ => Ok (map (fun x => fdiv x y) row)
       | _, [x] => Ok (map (fun y => fdiv x y) w)
       | _, _ => Raise ValueError
       end.

(** [a / w] for a 2-D [a] and a 1-D [w]: each row is divided on its
    own, so the outcome is numpy's when [a] has a row, and when it has
    none and [w] has the width of [a], or length 1. *)
Definition divide (a : ndarray2) (w : ndarray1) : result ndarray2 :=
  mapM (fun row => divide_row row w) a.

(** [a[k, :]] *)
Definition row (a : ndarray2) (k : Z) : result (list float) := getitem a k.

(** [v.reshape(r, c)]: the elements in order, cut into [r] rows of [c];
    ValueError unless the size is [r * c]. *)
Fixpoint chunks (r c : nat) (v : list float) : list (list float) :=
  match r with
  | O => []
  | S r' => firstn c v :: chunks r' c (skipn c v)
  end.

Definition reshape (v : list float) (r c : nat) : result ndarray2 :=
  if (length v =? r * c)%nat then Ok (chunks r c v) else Raise ValueError.

(** [np.cumsum(y)]: running sums from the left, the first entry is
    [y[0]] itself. *)
Fixpoint cumsum_from (acc : float) (y : list float) : list float :=
  match y with
  | [] => []
  | b :: y' => fadd acc b :: cumsum_from (fadd acc b) y'
  end.

Definition cumsum (y : list float) : list float :=
  match y with
  | [] => []
  | a :: y' => a :: cumsum_from a y'
  end.

(** [y[0] + y[1] + ... ] added from the left. *)
Definition sum_left (y : list float) : option float :=
  match y with
  | [] => None
  | a :: y' => Some (fold_left fadd y' a)
  end.

End Np.
End Np.

Import Np.

(** ** The data the model reads *)

(** A keyword argument value. *)
Inductive PyVal `{Float64} : Type :=
| VNone
| VInt (z : Z)
| VFloat (x : float)
| VStr (s : string).

Section Model.
Context `{Float64}.

(** [**kwargs], forwarded to [sklearn.decomposition.PCA]. *)
Definition Kwargs : Type := list (string * PyVal).

(** One GC-IMS spectrum: its two coordinate axes and the axis label. *)
Record Spectrum : Type := {
  ret_time : ndarray1;
  drift_time : ndarray1;
  _drift_time_label : string
}.

Record Dataset : Type := {
  name : string;
  samples : list string;
  labels : list string;
  spectra : list Spectrum
}.

(** Modelled from the spec: [Dataset.__getitem__] is not part of
    [pca.py]; [dataset[0]] is "the first spectrum" of the dataset, read
    here as indexing the sequence of its spectra. *)
Definition Dataset__getitem__ (d : Dataset) (k : Z) : result Spectrum :=
  getitem (spectra d) k.

(** What [BaseModel.__init__] leaves on [self]: the dataset, the scaling
    method, the (scaled) feature matrix and, when a weighting was
    computed, the per-feature weights. *)
Record BaseModel : Type := {
  bm_dataset : Dataset;
  bm_scaling_method : option string;
  bm_X : ndarray2;
  bm_weights : option ndarray1
}.

(** The fitted scikit-learn estimator, as far as the module reads it. *)
Record PCA : Type := {
  n_components_ : nat;
  explained_variance_ratio_ : ndarray1;
  components_ : ndarray2
}.

(** The attributes of a constructed [PCA_Model]. *)
Record PCA_Model : Type := {
  dataset : Dataset;
  scaling_method : option string;
  X : ndarray2;
  weights : option ndarray1;
  pca : PCA;
  pc : ndarray2;
  loadings : ndarray2
}.

(** The collaborators of the constructor: the parent class of this
    package and scikit-learn's PCA. *)
Class Collaborators : Type := {
  BaseModel__init__ : Dataset -> option string -> result BaseModel;
  PCA_fit : Kwargs -> ndarray2 -> result PCA;
  PCA_transform : PCA -> ndarray2 -> result ndarray2
}.

(** [self.weights]: AttributeError when the parent never assigned it. *)
Definition get_weights (b : BaseModel) : result ndarray1 :=
  match bm_weights b with
  | Some w => Ok w
  | None => Raise AttributeError
  end.

(** [x is not None] *)
Definition is_not_None {A} (x : option A) : bool :=
  match x with
  | Some _ => true
  | None => false
  end.

(** [x != s] for an optional string [x] and a string literal [s]. *)
Definition py_ne (x : option string) (s : string) : bool :=
  match x with
  | Some t => negb (String.eqb t s)
  | None => true
  end.

(** [PCA_Model.__init__] *)
Definition PCA_Model__init__ {CO : Collaborators}
    (dataset : Dataset) (scaling_method : option string) (kwargs : Kwargs)
  : result PCA_Model :=
  self <- BaseModel__init__ dataset scaling_method ;;
  pca <- PCA_fit kwargs (bm_X self) ;;
  pc <- PCA_transform pca (bm_X self) ;;
  loadings <-
    (if is_not_None (bm_scaling_method self)
        && py_ne scaling_method "standard"
     then w <- get_weights self ;; divide (components_ pca) w
     else ret (components_ pca)) ;;
  ret {| dataset := bm_dataset self;
         scaling_method := bm_scaling_method self;
         X := bm_X self;
         weights := bm_weights self;
         pca := pca;
         pc := pc;
         loadings := loadings |}.

End Model.

(** ** pandas, seaborn and matplotlib.pyplot *)

Inductive Axis : Type := XAxis | YAxis.

Section Plotting.
Context `{Float64}.

(** A cell of a data frame: a score or a sample name or label. *)
Inductive Cell : Type :=
| CF (x : float)
| CS (s : string).

(** A data frame: the length of its index and its columns in order. *)
Record DataFrame : Type := {
  df_index : nat;
  df_columns : list (string * list Cell)
}.

Definition column_of (data : ndarray2) (j : nat) : list Cell :=
  flat_map (fun r => match nth_error r j with
                     | Some x => [CF x]
                     | None => []
                     end) data.

(** [pd.DataFrame(data=data, columns=columns)] for [data] with a row:
    one column per name; ValueError when the number of names is not the
    width of [data]. *)
Definition DataFrame_new (data : ndarray2) (columns : list string)
  : result DataFrame :=
  if (ncols data =? length columns)%nat then
    Ok {| df_index := nrows data;
          df_columns :=
            combine columns
                    (map (column_of data) (seq 0 (length columns))) |}
  else Raise ValueError.

(** [df[name] = values] on a frame with rows: ValueError unless there
    is one value per row.  (pandas gives a frame without rows the index
    of [values] instead; what is proved of the table is proved of a
    table with rows.) *)
Definition df_setitem (df : DataFrame) (name : string) (values : list Cell)
  : result DataFrame :=
  if (length values =? df_index df)%nat then
    Ok {| df_index := df_index df;
          df_columns := assoc_set name values (df_columns df) |}
  else Raise ValueError.

(** The column a plotting call names; seaborn raises ValueError for a
    name that is not a column. *)
Definition df_column (df : DataFrame) (name : string) : result (list Cell) :=
  match assoc name (df_columns df) with
  | Some c => Ok c
  | None => Raise ValueError
  end.

(** [df.iterrows()]: each row as a table from column name to cell. *)
Definition df_row (df : DataFrame) (i : nat) : list (string * Cell) :=
  flat_map (fun nc => match nth_error (snd nc) i with
                      | Some c => [(fst nc, c)]
                      | None => []
                      end) (df_columns df).

Definition iterrows (df : DataFrame) : list (list (string * Cell)) :=
  map (df_row df) (seq 0 (df_index df)).

(** [point[name]] *)
Definition row_getitem (point : list (string * Cell)) (name : string)
  : result Cell :=
  match assoc name point with
  | Some c => Ok c
  | None => Raise KeyError
  end.

(** What is drawn on the axes of a figure. *)
Inductive Artist : Type :=
| AScatter (xs ys hues styles : list Cell) (s : Z)
| AImage (data : ndarray2) (origin aspect cmap : string) (vmin vmax : float)
| ALine (xs : list Z) (ys : list float) (label : string)
| AText (x y s : Cell).

(** The major ticks of an axis: left to the automatic locator, to a
    MaxNLocator(integer=True), or fixed with optional labels. *)
Inductive Ticks : Type :=
| TAuto
| TMaxN_integer
| TFixed (locs : list Num) (tick_labels : option (list Num)).

Record Legend : Type := {
  frameon : bool;
  fancybox : bool;
  facecolor : string
}.

(** A figure with its single axes. *)
Record Figure : Type := {
  figsize : option (Z * Z);        (* None: the default size *)
  fig_style : string;
  artists : list Artist;
  xlabel : option (string * option Z);
  ylabel : option (string * option Z);
  title : option (string * option Z);
  xticks : Ticks;
  yticks : Ticks;
  x_minor_locator : bool;
  y_minor_locator : bool;
  legend : option Legend;
  colorbar : bool
}.

(** matplotlib's side: which style sheets exist, and where the automatic
    locator puts the major ticks of an axis of a figure. *)
Class Matplotlib : Type := {
  style_available : string -> bool;
  auto_ticks : Axis -> Figure -> list float
}.

(** The store: the model object and pyplot's global state (all figures,
    the last one being the current figure, and the active style). *)
Record Store : Type := {
  self : PCA_Model;
  figures : list Figure;
  rc_style : string
}.

Definition M (A : Type) : Type := Store -> result A * Store.

#[export] Instance Monad_M : Monad M := {
  ret := fun A (a : A) (st : Store) => (Ok a, st);
  bind := fun A B (c : M A) (k : A -> M B) (st : Store) =>
            match c st with
            | (Ok a, st') => k a st'
            | (Raise e, st') => (Raise e, st')
            end
}.

Definition lift {A} (r : result A) : M A := fun st => (r, st).

Definition get_self : M PCA_Model := fun st => (Ok (self st), st).

Definition set_figures (fs : list Figure) (st : Store) : Store :=
  {| self := self st; figures := fs; rc_style := rc_style st |}.

Definition set_rc_style (s : string) (st : Store) : Store :=
  {| self := self st; figures := figures st; rc_style := s |}.

Definition new_figure (size : option (Z * Z)) (style : string) : Figure :=
  {| figsize := size; fig_style := style; artists := [];
     xlabel := None; ylabel := None; title := None;
     xticks := TAuto; yticks := TAuto;
     x_minor_locator := false; y_minor_locator := false;
     legend := None; colorbar := false |}.

(** [with plt.style.context(style): body]; the style active before is
    restored on the way out, also when [body] raises. *)
Definition style_context {MPL : Matplotlib} {A} (style : string) (body : M A)
  : M A :=
  fun st =>
    if style_available style then
      let old := rc_style st in
      let (r, st') := body (set_rc_style style st) in
      (r, set_rc_style old st')
    else (Raise OSError, st).

(** [fig, ax = plt.subplots(figsize=(width, height))]: a new figure,
    which becomes the current one; the handle is its number. *)
Definition plt_subplots (width height : Z) : M nat :=
  fun st =>
    (Ok (length (figures st)),
     set_figures (figures st ++ [new_figure (Some (width, height)) (rc_style st)])
                 st).

Fixpoint update_nth {A} (n : nat) (f : A -> A) (l : list A) : list A :=
  match l, n with
  | [], _ => []
  | a :: l', O => f a :: l'
  | a :: l', S n' => a :: update_nth n' f l'
  end.

(** A method of the axes object [ax] of figure [fig]. *)
Definition on_axes (fig : nat) (f : Figure -> Figure) : M unit :=
  fun st => (Ok tt, set_figures (update_nth fig f (figures st)) st).

(** A pyplot function: it acts on the current figure, and makes one
    when there is none. *)
Definition on_current (f : Figure -> Figure) : M unit :=
  fun st =>
    match figures st with
    | [] => (Ok tt, set_figures [f (new_figure None (rc_style st))] st)
    | fs => (Ok tt, set_figures (update_nth (length fs - 1) f fs) st)
    end.

Definition current_figure : M Figure :=
  fun st =>
    match figures st with
    | [] => (Ok (new_figure None (rc_style st)),
             set_figures [new_figure None (rc_style st)] st)
    | fs => (Ok (last fs (new_figure None (rc_style st))), st)
    end.

(** Field updates of a figure. *)
Definition add_artist (a : Artist) (g : Figure) : Figure :=
  {| figsize := figsize g; fig_style := fig_style g;
     artists := artists g ++ [a];
     xlabel := xlabel g; ylabel := ylabel g; title := title g;
     xticks := xticks g; yticks := yticks g;
     x_minor_locator := x_minor_locator g;
     y_minor_locator := y_minor_locator g;
     legend := legend g; colorbar := colorbar g |}.

Definition set_label (ax : Axis) (l : string * option Z) (g : Figure)
  : Figure :=
  {| figsize := figsize g; fig_style := fig_style g; artists := artists g;
     xlabel := match ax with XAxis => Some l | YAxis => xlabel g end;
     ylabel := match ax with XAxis => ylabel g | YAxis => Some l end;
     title := title g;
     xticks := xticks g; yticks := yticks g;
     x_minor_locator := x_minor_locator g;
     y_minor_locator := y_minor_locator g;
     legend := legend g; colorbar := colorbar g |}.

Definition set_title (l : string * option Z) (g : Figure) : Figure :=
  {| figsize := figsize g; fig_style := fig_style g; artists := artists g;
     xlabel := xlabel g; ylabel := ylabel g; title := Some l;
     xticks := xticks g; yticks := yticks g;
     x_minor_locator := x_minor_locator g;
     y_minor_locator := y_minor_locator g;
     legend := legend g; colorbar := colorbar g |}.

Definition set_ticks (ax : Axis) (t : Ticks) (g : Figure) : Figure :=
  {| figsize := figsize g; fig_style := fig_style g; artists := artists g;
     xlabel := xlabel g; ylabel := ylabel g; title := title g;
     xticks := match ax with XAxis => t | YAxis => xticks g end;
     yticks := match ax with XAxis => yticks g | YAxis => t end;
     x_minor_locator := x_minor_locator g;
     y_minor_locator := y_minor_locator g;
     legend := legend g; colorbar := colorbar g |}.

Definition set_minor (ax : Axis) (g : Figure) : Figure :=
  {| figsize := figsize g; fig_style := fig_style g; artists := artists g;
     xlabel := xlabel g; ylabel := ylabel g; title := title g;
     xticks := xticks g; yticks := yticks g;
     x_minor_locator :=
       match ax with XAxis => true | YAxis => x_minor_locator g end;
     y_minor_locator :=
       match ax with XAxis => y_minor_locator g | YAxis => true end;
     legend := legend g; colorbar := colorbar g |}.

Definition set_legend (l : Legend) (g : Figure) : Figure :=
  {| figsize := figsize g; fig_style := fig_style g; artists := artists g;
     xlabel := xlabel g; ylabel := ylabel g; title := title g;
     xticks := xticks g; yticks := yticks g;
     x_minor_locator := x_minor_locator g;
     y_minor_locator := y_minor_locator g;
     legend := Some l; colorbar := colorbar g |}.

Definition set_colorbar (g : Figure) : Figure :=
  {| figsize := figsize g; fig_style := fig_style g; artists := artists g;
     xlabel := xlabel g; ylabel := ylabel g; title := title g;
     xticks := xticks g; yticks := yticks g;
     x_minor_locator := x_minor_locator g;
     y_minor_locator := y_minor_locator g;
     legend := legend g; colorbar := true |}.

Definition is_image (a : Artist) : bool :=
  match a with
  | AImage _ _ _ _ _ _ => true
  | _ => false
  end.

(** [sns.scatterplot(ax=ax, x=x, y=y, data=data, hue=hue, style=style,
    s=s)]: the four names are looked up as columns of [data]; the axes
    get the points and the two column names as axis labels. *)
Definition sns_scatterplot (ax : nat) (x y : string) (data : DataFrame)
    (hue style : string) (s : Z) : M unit :=
  xs <- lift (df_column data x) ;;
  ys <- lift (df_column data y) ;;
  hues <- lift (df_column data hue) ;;
  styles <- lift (df_column data style) ;;
  on_axes ax (fun g =>
    set_label YAxis (y, None)
      (set_label XAxis (x, None)
         (add_artist (AScatter xs ys hues styles s) g))).

Definition plt_legend (frameon fancybox : bool) (facecolor : string)
  : M unit :=
  on_current (set_legend {| frameon := frameon; fancybox := fancybox;
                            facecolor := facecolor |}).

Definition plt_xlabel (s : string) (fontsize : option Z) : M unit :=
  on_current (set_label XAxis (s, fontsize)).

Definition plt_ylabel (s : string) (fontsize : option Z) : M unit :=
  on_current (set_label YAxis (s, fontsize)).

Definition plt_title (s : string) (fontsize : option Z) : M unit :=
  on_current (set_title (s, fontsize)).

Definition ax_text (ax : nat) (x y s : Cell) : M unit :=
  on_axes ax (add_artist (AText x y s)).

Definition plt_imshow (data : ndarray2) (origin aspect cmap : string)
    (vmin vmax : float) : M unit :=
  on_current (add_artist (AImage data origin aspect cmap vmin vmax)).

(** [plt.colorbar()]: needs an image on the current axes. *)
Definition plt_colorbar : M unit :=
  g <- current_figure ;;
  if existsb is_image (artists g) then on_current set_colorbar
  else lift (Raise RuntimeError).

Definition num_to_float (v : Num) : float :=
  match v with
  | NInt z => float_of_int z
  | NFloat x => x
  end.

Definition ticks_of (ax : Axis) (g : Figure) : Ticks :=
  match ax with XAxis => xticks g | YAxis => yticks g end.

(** [locs, _ = plt.xticks()] and [plt.yticks()]: the tick locations of
    the current axes. *)
Definition plt_get_ticks {MPL : Matplotlib} (ax : Axis) : M (list float) :=
  g <- current_figure ;;
  ret (match ticks_of ax g with
       | TFixed locs _ => map num_to_float locs
       | _ => auto_ticks ax g
       end).

(** [plt.xticks(locs, labels)] and [plt.yticks(locs, labels)] *)
Definition plt_set_ticks (ax : Axis) (locs : list Num)
    (tick_labels : option (list Num)) : M unit :=
  on_current (set_ticks ax (TFixed locs tick_labels)).

(** [ax.xaxis.set_minor_locator(AutoMinorLocator())] *)
Definition ax_set_minor_locator (fig : nat) (ax : Axis) : M unit :=
  on_axes fig (set_minor ax).

(** [axis.set_major_locator(MaxNLocator(integer=True))] *)
Definition ax_set_major_locator_integer (fig : nat) (ax : Axis) : M unit :=
  on_axes fig (set_ticks ax TMaxN_integer).

(** [ax.plot(x, y, label=label)]: ValueError when the two sequences
    differ in length. *)
Definition ax_plot (fig : nat) (xs : list Z) (ys : list float)
    (label : string) : M unit :=
  if (length xs =? length ys)%nat then on_axes fig (add_artist (ALine xs ys label))
  else lift (Raise ValueError).

(** [for x in xs: body x] *)
Fixpoint for_each {A} (xs : list A) (body : A -> M unit) : M unit :=
  match xs with
  | [] => ret tt
  | x :: xs' => body x ;; for_each xs' body
  end.

End Plotting.

(** ** The three plot methods of [PCA_Model] *)

Section Methods.
Context `{Float64} {MPL : Matplotlib}.

(** [self.<attribute>] *)
Definition attr {A} (f : PCA_Model -> A) : M A :=
  m <- get_self ;; ret (f m).

(** [f"PC {x}"] *)
Definition PC_name (x : Z) : string := ("PC " ++ str x)%string.

(** [f"PC {x} ({v} % of variance)"] *)
Definition variance_label (x : Z) (v : float) : string :=
  ("PC " ++ str x ++ " (" ++ fmt_float v ++ " % of variance)")%string.

(** [PCA_Model.scatter_plot] *)
Definition scatter_plot (PC_x PC_y : Z) (width height : Z)
    (hue style : string) (label : bool) : M nat :=
  n <- attr (fun m => Z.of_nat (n_components_ (pca m))) ;;
  ratio <- attr (fun m => explained_variance_ratio_ (pca m)) ;;
  expl_var <- lift (mapM (fun i => r <- getitem ratio (i - 1) ;;
                                   ret (round_nd (fmul_int r 100) 1))
                         (range 1 (n + 1))) ;;
  data <- attr pc ;;
  n' <- attr (fun m => Z.of_nat (n_components_ (pca m))) ;;
  pc_df <- lift (DataFrame_new data (map PC_name (range 1 (n' + 1)))) ;;
  sample_names <- attr (fun m => samples (dataset m)) ;;
  pc_df <- lift (df_setitem pc_df "Sample" (map CS sample_names)) ;;
  label_names <- attr (fun m => labels (dataset m)) ;;
  pc_df <- lift (df_setitem pc_df "Label" (map CS label_names)) ;;
  style_context "seaborn"
    (fig <- plt_subplots width height ;;
     sns_scatterplot fig (PC_name PC_x) (PC_name PC_y) pc_df hue style 100 ;;
     plt_legend true true "white" ;;
     vx <- lift (getitem expl_var (PC_x - 1)) ;;
     plt_xlabel (variance_label PC_x vx) None ;;
     vy <- lift (getitem expl_var (PC_y - 1)) ;;
     plt_ylabel (variance_label PC_y vy) None ;;
     (if label then
        for_each (iterrows pc_df)
          (fun point =>
             px <- lift (row_getitem point (PC_name PC_x)) ;;
             py <- lift (row_getitem point (PC_name PC_y)) ;;
             ps <- lift (row_getitem point "Sample") ;;
             ax_text fig px py ps)
      else ret tt) ;;
     ret fig).

(** [[round(ret_time[int(i)]) for i in locs]] *)
Definition rt_tick_labels (ret_time : ndarray1) (locs : list float)
  : result (list Num) :=
  mapM (fun i => v <- getitem ret_time (int_of i) ;;
                 ret (NInt (round_int v))) locs.

(** [[round(drift_time[int(i)], 1) for i in locs]] *)
Definition dt_tick_labels (drift_time : ndarray1) (locs : list float)
  : result (list Num) :=
  mapM (fun i => v <- getitem drift_time (int_of i) ;;
                 ret (NFloat (round_nd v 1))) locs.

(** [PCA_Model.loadings_plot] *)
Definition loadings_plot (PC : Z) (color_range : float) (width height : Z)
  : M nat :=
  ds <- attr dataset ;;
  first <- lift (Dataset__getitem__ ds 0) ;;
  let ret_time := ret_time first in
  ds <- attr dataset ;;
  first <- lift (Dataset__getitem__ ds 0) ;;
  let drift_time := drift_time first in
  l <- attr loadings ;;
  v <- lift (row l (PC - 1)) ;;
  loading_pc <- lift (reshape v (length ret_time) (length drift_time)) ;;
  fig <- plt_subplots width height ;;
  plt_imshow loading_pc "lower" "auto" "RdBu_r"
             (fneg color_range) color_range ;;
  plt_colorbar ;;
  xlocs <- plt_get_ticks XAxis ;;
  ylocs <- plt_get_ticks YAxis ;;
  rt_ticks <- lift (rt_tick_labels ret_time (slice_1_m1 ylocs)) ;;
  dt_ticks <- lift (dt_tick_labels drift_time (slice_1_m1 xlocs)) ;;
  plt_set_ticks XAxis (map NFloat (slice_1_m1 xlocs)) (Some dt_ticks) ;;
  plt_set_ticks YAxis (map NFloat (slice_1_m1 ylocs)) (Some rt_ticks) ;;
  ax_set_minor_locator fig XAxis ;;
  ax_set_minor_locator fig YAxis ;;
  ds <- attr dataset ;;
  first <- lift (Dataset__getitem__ ds 0) ;;
  plt_xlabel (_drift_time_label first) (Some 12) ;;
  plt_ylabel "Retention Time [s]" (Some 12) ;;
  plt_title ("PCA Loadings of PC " ++ str PC)%string (Some 16) ;;
  ret fig.

(** [PCA_Model.scree_plot] *)
Definition scree_plot (width height : Z) (style : string) : M nat :=
  n <- attr (fun m => Z.of_nat (n_components_ (pca m))) ;;
  let x := range 1 (n + 1) in
  y <- attr (fun m => explained_variance_ratio_ (pca m)) ;;
  style_context style
    (fig <- plt_subplots width height ;;
     for_each [XAxis; YAxis] (ax_set_major_locator_integer fig) ;;
     plt_set_ticks XAxis (map NInt x) None ;;
     plt_xlabel "Principal Component" (Some 12) ;;
     plt_ylabel "Explainded variance ratio [%]" (Some 12) ;;
     ax_plot fig x (map (fun v => fmul_int v 100) (cumsum y)) "cumulative" ;;
     ax_plot fig x (map (fun v => fmul_int v 100) y) "per PC" ;;
     plt_legend true true "white" ;;
     ret fig).

(** [str(x)] for an optional string, as an f-string prints it. *)
Definition str_optional (x : option string) : string :=
  match x with
  | Some t => t
  | None => "None"
  end.

(** The line break of a triple-quoted string. *)
Definition newline : string := String "010"%char EmptyString.

(** [PCA_Model.__repr__] *)
Definition PCA_Model__repr__ : M string :=
  dataset_name <- attr (fun m => name (dataset m)) ;;
  method <- attr scaling_method ;;
  ret ("PCA:" ++ newline ++ dataset_name ++ "," ++ newline
         ++ str_optional method ++ " scaling" ++ newline)%string.

End Methods.

(** ** What the module relies on from its collaborators *)

Section Contracts.
Context `{Float64} {MPL : Matplotlib}.

(** Every row of [a] divided position by position by [w]. *)
Definition elementwise_div (a : ndarray2) (w : ndarray1) : ndarray2 :=
  map (fun r => zip_with fdiv r w) a.

(** scikit-learn's documented shapes: [components_] is
    (n_components_, n_features), there is one explained-variance ratio
    per component, an integer [n_components] argument is kept as
    [n_components_], and [transform] returns (n_samples, n_components_). *)
Definition sklearn_shapes {CO : Collaborators} : Prop :=
  (forall kw X p, PCA_fit kw X = Ok p ->
     has_shape (components_ p) (n_components_ p) (ncols X)
     /\ length (explained_variance_ratio_ p) = n_components_ p
     /\ (forall k, assoc "n_components" kw = Some (VInt (Z.of_nat k)) ->
                   n_components_ p = k))
  /\ (forall p X s, PCA_transform p X = Ok s ->
         has_shape s (nrows X) (n_components_ p)).

(** A model as the constructor leaves it when scikit-learn keeps to its
    shapes and the data set has one name and one label per sample. *)
Record fitted (m : PCA_Model) : Prop := {
  fitted_ratio :
    length (explained_variance_ratio_ (pca m)) = n_components_ (pca m);
  fitted_loadings : length (loadings m) = n_components_ (pca m);
  fitted_pc :
    has_shape (pc m) (length (samples (dataset m))) (n_components_ (pca m));
  fitted_samples : (0 < length (samples (dataset m)))%nat;
  fitted_labels :
    length (labels (dataset m)) = length (samples (dataset m))
}.

(** The table [scatter_plot] builds: a column "PC k" with the scores of
    component k for k = 1..n, then the sample names and the labels. *)
Definition score_columns (data : ndarray2) (n : nat)
  : list (string * list Cell) :=
  map (fun k => (PC_name (Z.of_nat (S k)), column_of data k)) (seq 0 n).

Definition score_frame (m : PCA_Model) : DataFrame :=
  {| df_index := nrows (pc m);
     df_columns :=
       assoc_set "Label" (map CS (labels (dataset m)))
         (assoc_set "Sample" (map CS (samples (dataset m)))
            (score_columns (pc m) (n_components_ (pca m)))) |}.

(** [round(ratio * 100, 1)], the percentage of an axis label. *)
Definition percent (ratio : float) : float :=
  round_nd (fmul_int ratio 100) 1.

(** A figure with further artists drawn on it, in order. *)
Definition draw_all (arts : list Artist) (g : Figure) : Figure :=
  fold_left (fun g' a => add_artist a g') arts g.

(** The figure of [scatter_plot] before any point is annotated: the
    points, the legend and the two axis labels with their percentages. *)
Definition scatter_figure (PC_x PC_y width height : Z)
    (xs ys hues styles : list Cell) (vx vy : float) : Figure :=
  set_label YAxis (variance_label PC_y vy, None)
    (set_label XAxis (variance_label PC_x vx, None)
       (set_legend {| frameon := true; fancybox := true;
                      facecolor := "white" |}
          (set_label YAxis (PC_name PC_y, None)
             (set_label XAxis (PC_name PC_x, None)
                (add_artist (AScatter xs ys hues styles 100)
                   (new_figure (Some (width, height)) "seaborn")))))).

(** The figure of [scree_plot]: integer ticks, one tick per component,
    the two axis labels, the cumulative and the per-component line, and
    the legend. *)
Definition scree_figure (width height : Z) (style : string)
    (x : list Z) (y : list float) : Figure :=
  set_legend {| frameon := true; fancybox := true; facecolor := "white" |}
    (add_artist (ALine x (map (fun v => fmul_int v 100) y) "per PC")
       (add_artist
          (ALine x (map (fun v => fmul_int v 100) (cumsum y)) "cumulative")
          (set_label YAxis ("Explainded variance ratio [%]"%string, Some 12)
             (set_label XAxis ("Principal Component"%string, Some 12)
                (set_ticks XAxis (TFixed (map NInt x) None)
                   (set_ticks YAxis TMaxN_integer
                      (set_ticks XAxis TMaxN_integer
                         (new_figure (Some (width, height)) style)))))))).

(** The figure of [loadings_plot] at the moment its ticks are read: a
    new figure of the given size with the heat map and its colour bar. *)
Definition heatmap_canvas (width height : Z) (style : string)
    (data : ndarray2) (color_range : float) : Figure :=
  set_colorbar
    (add_artist (AImage data "lower" "auto" "RdBu_r"
                        (fneg color_range) color_range)
                (new_figure (Some (width, height)) style)).

(** The tick locations [loadings_plot] keeps on an axis: the automatic
    ones of the canvas without the first and the last. *)
Definition kept_ticks (ax : Axis) (canvas : Figure) : list float :=
  slice_1_m1 (auto_ticks ax canvas).


(** The figure [loadings_plot] returns, from that canvas, the tick
    locations it keeps with their labels, and the first spectrum. *)
Definition loadings_figure (PC : Z) (first : Spectrum) (canvas : Figure)
    (xlocs ylocs : list float) (dt_ticks rt_ticks : list Num) : Figure :=
  set_title (("PCA Loadings of PC " ++ str PC)%string, Some 16)
    (set_label YAxis ("Retention Time [s]"%string, Some 12)
       (set_label XAxis (_drift_time_label first, Some 12)
          (set_minor YAxis
             (set_minor XAxis
                (set_ticks YAxis (TFixed (map NFloat ylocs) (Some rt_ticks))
                   (set_ticks XAxis
                      (TFixed (map NFloat xlocs) (Some dt_ticks))
                      canvas)))))).

(** A plot method that only reads the model and draws a new chart: the
    model object is the same afterwards, and a returned handle is the
    number of a figure that was not there before, added after the
    figures that were, which are as they were. *)
Definition reads_and_draws (c : M nat) : Prop :=
  forall st,
    self (snd (c st)) = self st
    /\ forall fig, fst (c st) = Ok fig ->
                   fig = length (figures st)
                   /\ exists g, figures (snd (c st)) = figures st ++ [g].

(** Pre- and postconditions of a statement, and an invariant of it. *)
Definition triple {A} (P : Store -> Prop) (c : M A)
    (Q : result A -> Store -> Prop) : Prop :=
  forall st, P st -> Q (fst (c st)) (snd (c st)).

Definition preserves {A} (I : Store -> Prop) (c : M A) : Prop :=
  forall st, I st -> I (snd (c st)).

(** Before the figure is made, and once it is there. *)
Definition before_figure (m0 : PCA_Model) (old : list Figure) (st : Store)
  : Prop :=
  self st = m0 /\ figures st = old.

Definition with_figure (m0 : PCA_Model) (old : list Figure) (st : Store)
  : Prop :=
  self st = m0 /\ exists g, figures st = old ++ [g].

Definition drawn (m0 : PCA_Model) (old : list Figure) (r : result nat)
    (st : Store) : Prop :=
  self st = m0
  /\ forall fig, r = Ok fig ->
                 fig = length old /\ exists g, figures st = old ++ [g].

(** At most one figure was added, after the figures [old]. *)
Definition at_most_one_new (old : list Figure) (r : result nat) (st : Store)
  : Prop :=
  figures st = old \/ exists g, figures st = old ++ [g].

(** A call that leaves the earlier figures alone, returning or raising. *)
Definition keeps_figures (c : M nat) : Prop :=
  forall st, at_most_one_new (figures st) (fst (c st)) (snd (c st)).

(** A call after which the active style sheet is the one before it. *)
Definition restores_style (c : M nat) : Prop :=
  forall st, rc_style (snd (c st)) = rc_style st.

(** The active style sheet is [s0]. *)
Definition style_is (s0 : string) (st : Store) : Prop := rc_style st = s0.

(** The column names of the table of [scatter_plot]. *)
Definition is_column (m : PCA_Model) (name : string) : Prop :=
  name = "Sample"%string \/ name = "Label"%string
  \/ exists k, 1 <= k <= Z.of_nat (n_components_ (pca m))
               /\ name = PC_name k.

End Contracts.

(** ** An exact instance, for running the model

    Rational numbers stand in for floats that are computed without
    rounding error; rounding is to the nearest, ties to even. *)

Module Exact.

Definition round_half_even (q : Q) : Z :=
  let f := Qfloor q in
  match Qcompare (q - inject_Z f) (1 # 2) with
  | Lt => f
  | Gt => f + 1
  | Eq => if Z.even f then f else f + 1
  end.

Definition pow10 (n : Z) : Q := inject_Z (10 ^ n).

Definition round_digits (q : Q) (n : Z) : Q :=
  Qred (inject_Z (round_half_even (q * pow10 n)) / pow10 n).

(** A number with one decimal, printed as Python prints it. *)
Definition fmt1 (q : Q) : string :=
  let t := round_half_even (q * 10) in
  ((if (t <? 0)%Z then "-" else "")
     ++ str (Z.abs t / 10)%Z ++ "." ++ str (Z.abs t mod 10)%Z)%string.

#[export] Instance Float64_Q : Float64 := {
  float := Q;
  fdiv := fun x y => Qred (x / y);
  fadd := fun x y => Qred (x + y);
  fmul_int := fun x k => Qred (x * inject_Z k);
  fneg := fun x => Qred (- x);
  round_nd := round_digits;
  round_int := round_half_even;
  int_of := fun x => Z.quot (Qnum x) (Zpos (Qden x));
  float_of_int := inject_Z;
  fle := Qle;
  fzero := 0%Q;
  fmt_float := fmt1
}.

(** Ticks every two cells from -2 up to the first even number past the
    last cell, as the automatic locator places them on a small heat map;
    every style sheet is available. *)
Definition image_cells (ax : Axis) (g : Figure) : nat :=
  match filter is_image (artists g) with
  | AImage data _ _ _ _ _ :: _ =>
      match ax with XAxis => ncols data | YAxis => nrows data end
  | _ => 0%nat
  end.

#[export] Instance Matplotlib_small : Matplotlib := {
  style_available := fun _ => true;
  auto_ticks := fun ax g =>
    map (fun k => inject_Z (2 * Z.of_nat k - 2))
        (seq 0 (Nat.div2 (image_cells ax g + 1) + 2))
}.

(** Three spectra of 2 x 3 points. *)
Definition spectrum0 : Spectrum :=
  {| ret_time := [10 # 1; 201 # 10]%Q;
     drift_time := [(125 # 100); (250 # 100); (375 # 100)]%Q;
     _drift_time_label := "Drift Time [ms]" |}.

Definition dataset0 : Dataset :=
  {| name := "demo";
     samples := ["a"; "b"; "c"]%string;
     labels := ["x"; "x"; "y"]%string;
     spectra := [spectrum0; spectrum0; spectrum0] |}.

Definition X0 : ndarray2 :=
  [[1; 0; 2; 0; 1; 0]; [0; 1; 0; 2; 0; 1]; [1; 1; 2; 2; 1; 1]]%Q.

Definition weights0 : ndarray1 := [2; 2; 4; 4; 2; 2]%Q.

Definition pca0 : PCA :=
  {| n_components_ := 2;
     explained_variance_ratio_ := [5 # 8; 1 # 4]%Q;
     components_ := [[1; 0; 2; 0; 1; 0]; [0; 1; 0; 2; 0; 1]]%Q |}.

Definition pc0 : ndarray2 := [[1; -1]; [-1; 1]; [0; 0]]%Q.

(** Stand-ins for the parent class and for scikit-learn.  The parent
    gives every spectrum a row of ones and weights of two; the estimator
    answers with the first coordinate axes as components and projects
    on them. *)
Definition known_method (m : option string) : bool :=
  match m with
  | None => true
  | Some s => existsb (String.eqb s) ["standard"; "auto"; "pareto"; "var"]%string
  end.

Definition demo_X (ds : Dataset) : ndarray2 :=
  map (fun sp => repeat 1%Q (length (ret_time sp) * length (drift_time sp)))
      (spectra ds).

Definition demo_base (ds : Dataset) (m : option string)
  : result BaseModel :=
  if known_method m then
    Ok {| bm_dataset := ds; bm_scaling_method := m; bm_X := demo_X ds;
          bm_weights :=
            match m with
            | None => None
            | Some s => if String.eqb s "standard" then None
                        else Some (repeat 2%Q (ncols (demo_X ds)))
            end |}
  else Raise ValueError.

Definition unit_row (width i : nat) : list Q :=
  map (fun j => if (i =? j)%nat then 1%Q else 0%Q) (seq 0 width).

Definition demo_fit (kw : Kwargs) (X : ndarray2) : result PCA :=
  match assoc "n_components" kw with
  | Some (VInt k) =>
      if (0 <=? k)%Z && (k <=? Z.of_nat (Nat.min (nrows X) (ncols X)))%Z then
        Ok {| n_components_ := Z.to_nat k;
              explained_variance_ratio_ :=
                map (fun i => 1 # Pos.of_nat (2 ^ (i + 1)))
                    (seq 0 (Z.to_nat k));
              components_ :=
                map (unit_row (ncols X)) (seq 0 (Z.to_nat k)) |}
      else Raise ValueError
  | _ => Raise ValueError
  end.

Definition demo_transform (p : PCA) (X : ndarray2) : result ndarray2 :=
  if forallb (fun r => (n_components_ p <=? length r)%nat) X then
    Ok (map (firstn (n_components_ p)) X)
  else Raise ValueError.

#[export] Instance Collaborators_demo : Collaborators := {
  BaseModel__init__ := demo_base;
  PCA_fit := demo_fit;
  PCA_transform := demo_transform
}.

(** Ten spectra of 5 x 10 points: a 10 x 50 feature matrix. *)
Definition spectrum_5x10 : Spectrum :=
  {| ret_time := map inject_Z [0; 1; 2; 3; 4]%Z;
     drift_time := map inject_Z [0; 1; 2; 3; 4; 5; 6; 7; 8; 9]%Z;
     _drift_time_label := "Drift Time [ms]" |}.

Definition dataset_10x50 : Dataset :=
  {| name := "ten";
     samples := ["s0"; "s1"; "s2"; "s3"; "s4"; "s5"; "s6"; "s7"; "s8"; "s9"]%string;
     labels := ["A"; "A"; "A"; "A"; "A"; "B"; "B"; "B"; "B"; "B"]%string;
     spectra := repeat spectrum_5x10 10 |}.

(** A fitted model of two components over the three spectra, scaled by
    "pareto" weights. *)
Definition model0 : PCA_Model :=
  {| dataset := dataset0; scaling_method := Some "pareto"%string;
     X := X0; weights := Some weights0; pca := pca0; pc := pc0;
     loadings := [[1 # 2; 0; 1 # 2; 0; 1 # 2; 0];
                  [0; 1 # 2; 0; 1 # 2; 0; 1 # 2]]%Q |}.

Definition kw2 : Kwargs := [("n_components"%string, VInt 2)].
Definition kw3 : Kwargs := [("n_components"%string, VInt 3)].

(** A matplotlib without the "seaborn" style sheet, as the releases
    that dropped it. *)
Definition Matplotlib_plain : Matplotlib := {|
  style_available := fun s => String.eqb s "default";
  auto_ticks := auto_ticks (Matplotlib := Matplotlib_small)
|}.

(** A parent whose weights do not follow the features: one weight for
    "auto" scaling, two for any other. *)
Definition short_base (ds : Dataset) (m : option string)
  : result BaseModel :=
  Ok {| bm_dataset := ds; bm_scaling_method := m; bm_X := demo_X ds;
        bm_weights :=
          if py_ne m "auto" then Some [2; 2]%Q else Some [4]%Q |}.

Definition Collaborators_short : Collaborators := {|
  BaseModel__init__ := short_base;
  PCA_fit := demo_fit;
  PCA_transform := demo_transform
|}.

(** The demo model after a sample was taken out of its data set: two
    names and labels for three rows of scores. *)
Definition dataset_short : Dataset :=
  {| name := "demo";
     samples := ["a"; "b"]%string;
     labels := ["x"; "x"]%string;
     spectra := [spectrum0; spectrum0] |}.

Definition model_short : PCA_Model :=
  {| dataset := dataset_short; scaling_method := Some "pareto"%string;
     X := X0; weights := Some weights0; pca := pca0; pc := pc0;
     loadings := loadings model0 |}.

Definition store0 : Store :=
  {| self := model0; figures := []; rc_style := "default" |}.

Definition store_short : Store :=
  {| self := model_short; figures := []; rc_style := "default" |}.

(** The demo model with loadings of five entries, which do not fill
    the 2 x 3 grid of its spectra. *)
Definition model_five : PCA_Model :=
  {| dataset := dataset0; scaling_method := Some "pareto"%string;
     X := X0; weights := Some weights0; pca := pca0; pc := pc0;
     loadings := [[1 # 2; 0; 1 # 2; 0; 1 # 2];
                  [0; 1 # 2; 0; 1 # 2; 0]]%Q |}.

Definition store_five : Store :=
  {| self := model_five; figures := []; rc_style := "default" |}.

(** The same exact arithmetic with a NaN: [None] is not-a-number.  An
    operation on a NaN gives a NaN, and so does a division by zero (as
    0 / 0 does; the infinities of other quotients are not represented);
    [<=] holds of no NaN.  [round] and [int]
    raise on a NaN in Python: they are not applied to one below and read
    it as 0. *)
Definition nan_lift (f : Q -> Q -> Q) (x y : option Q) : option Q :=
  match x, y with
  | Some a, Some b => Some (f a b)
  | _, _ => None
  end.

Definition nan_le (x y : option Q) : Prop :=
  match x, y with
  | Some a, Some b => (a <= b)%Q
  | _, _ => False
  end.

Definition Float64_nan : Float64 := {|
  float := option Q;
  fdiv := fun x y =>
    match y with
    | Some b => if Qeq_bool b 0 then None
                else nan_lift (fun a c => Qred (a / c)) x y
    | None => None
    end;
  fadd := nan_lift (fun a b => Qred (a + b));
  fmul_int := fun x k => option_map (fun a => Qred (a * inject_Z k)) x;
  fneg := option_map (fun a => Qred (- a));
  round_nd := fun x n => option_map (fun a => round_digits a n) x;
  round_int := fun x =>
    match x with Some a => round_half_even a | None => 0%Z end;
  int_of := fun x =>
    match x with Some a => Z.quot (Qnum a) (Zpos (Qden a)) | None => 0%Z end;
  float_of_int := fun k => Some (inject_Z k);
  fle := nan_le;
  fzero := Some 0%Q;
  fmt_float := fun x =>
    match x with Some a => fmt1 a | None => "nan"%string end
|}.

Definition Matplotlib_nan : @Matplotlib Float64_nan := {|
  style_available := fun _ => true;
  auto_ticks := fun _ _ => []
|}.

(** A model fitted on two equal samples.  The data have no variance and
    the explained-variance ratios, 0 / 0, are NaN. *)
Definition dataset_flat : @Dataset Float64_nan :=
  @Build_Dataset Float64_nan "flat" ["a"; "b"]%string ["x"; "y"]%string [].

Definition pca_nan : @PCA Float64_nan :=
  @Build_PCA Float64_nan 2 [None; None]
    [[Some 1%Q; Some 0%Q]; [Some 0%Q; Some 1%Q]].

Definition model_nan : @PCA_Model Float64_nan :=
  @Build_PCA_Model Float64_nan dataset_flat None
    [[Some 1%Q; Some 1%Q]; [Some 1%Q; Some 1%Q]] None pca_nan
    [[Some 0%Q; Some 0%Q]; [Some 0%Q; Some 0%Q]]
    [[Some 1%Q; Some 0%Q]; [Some 0%Q; Some 1%Q]].

Definition store_nan : @Store Float64_nan :=
  @Build_Store Float64_nan model_nan [] "default".

End Exact.

(** * Properties *)

(** ** Facts about the Python runtime *)

Module PyFacts.

Lemma getitem_inside {A} (l : list A) (k : Z) (a : A) :
  0 <= k -> nth_error l (Z.to_nat k) = Some a -> getitem l k = Ok a.
Proof.
  intros Hk Hn. unfold getitem.
  assert (Hlt : (Z.to_nat k < length l)%nat)
    by (apply nth_error_Some; congruence).
  destruct (k <? 0) eqn:E; [apply Z.ltb_lt in E; lia|].
  replace ((0 <=? k) && (k <? Z.of_nat (length l))) with true.
  - now rewrite Hn.
  - symmetry. apply andb_true_iff. split.
    + apply Z.leb_le; lia.
    + apply Z.ltb_lt; lia.
Qed.

(** A negative index counts from the end. *)
Lemma getitem_wrap {A} (l : list A) (k : Z) :
  - Z.of_nat (length l) <= k < 0 ->
  getitem l k = getitem l (k + Z.of_nat (length l)).
Proof.
  intros [Hlo Hhi]. unfold getitem.
  destruct (k <? 0) eqn:E; [|apply Z.ltb_ge in E; lia].
  destruct (k + Z.of_nat (length l) <? 0) eqn:E'.
  - apply Z.ltb_lt in E'. lia.
  - reflexivity.
Qed.

Lemma getitem_outside {A} (l : list A) (k : Z) :
  k < - Z.of_nat (length l) \/ Z.of_nat (length l) <= k ->
  getitem l k = Raise IndexError.
Proof.
  intros Hk. unfold getitem.
  destruct (k <? 0) eqn:E.
  - apply Z.ltb_lt in E.
    destruct (0 <=? k + Z.of_nat (length l)) eqn:E1; simpl; [|reflexivity].
    apply Z.leb_le in E1. lia.
  - apply Z.ltb_ge in E.
    destruct (k <? Z.of_nat (length l)) eqn:E1.
    + apply Z.ltb_lt in E1. lia.
    + now rewrite andb_false_r.
Qed.

(** An index in [-len, len) always finds an element. *)
Lemma getitem_total {A} (l : list A) (k : Z) :
  - Z.of_nat (length l) <= k < Z.of_nat (length l) ->
  exists a, getitem l k = Ok a.
Proof.
  intros Hk.
  assert (Hpos : forall j, 0 <= j < Z.of_nat (length l) ->
                           exists a, getitem l j = Ok a).
  { intros j Hj.
    destruct (nth_error l (Z.to_nat j)) as [a|] eqn:E.
    - exists a. apply getitem_inside; [lia | exact E].
    - apply nth_error_None in E. lia. }
  destruct (Z_lt_le_dec k 0) as [Hneg | Hnn].
  - rewrite getitem_wrap by lia. apply Hpos. lia.
  - apply Hpos. lia.
Qed.

Lemma getitem_Ok_inv {A} (l : list A) (k : Z) (a : A) :
  getitem l k = Ok a ->
  - Z.of_nat (length l) <= k < Z.of_nat (length l).
Proof.
  intros Hg.
  destruct (Z_lt_le_dec k (- Z.of_nat (length l))) as [H1 | H1].
  - rewrite getitem_outside in Hg by lia. discriminate.
  - destruct (Z_lt_le_dec k (Z.of_nat (length l))) as [H2 | H2]; [lia|].
    rewrite getitem_outside in Hg by lia. discriminate.
Qed.

Lemma length_range (a b : Z) : length (range a b) = Z.to_nat (b - a).
Proof. unfold range. now rewrite length_map, length_seq. Qed.

Lemma nth_error_range (a b : Z) (i : nat) :
  (i < Z.to_nat (b - a))%nat ->
  nth_error (range a b) i = Some (a + Z.of_nat i).
Proof.
  intros Hi. unfold range.
  rewrite nth_error_map, nth_error_seq.
  destruct (Nat.ltb_spec i (Z.to_nat (b - a))); [reflexivity | lia].
Qed.

Lemma in_range (a b x : Z) : In x (range a b) <-> a <= x < b.
Proof.
  unfold range. rewrite in_map_iff. split.
  - intros (k & <- & Hk). apply in_seq in Hk. lia.
  - intros Hx. exists (Z.to_nat (x - a)). split; [lia|].
    apply in_seq. lia.
Qed.

(** [range(1, n + 1)] is [1, 2, ..., n]. *)
Lemma range_1_succ (n : nat) :
  range 1 (Z.of_nat n + 1) = map (fun k => Z.of_nat (S k)) (seq 0 n).
Proof.
  unfold range. replace (Z.to_nat (Z.of_nat n + 1 - 1)) with n by lia.
  apply map_ext. intros k. lia.
Qed.

(** Printing an int loses nothing. *)
Lemma str_inj (a b : Z) : str a = str b -> a = b.
Proof.
  unfold str. intros Hs.
  assert (Hi : Some (Z.to_int a) = Some (Z.to_int b)).
  { rewrite <- (NilEmpty.isi (Z.to_int a)), <- (NilEmpty.isi (Z.to_int b)).
    now rewrite Hs. }
  injection Hi as Hi. now apply DecimalZ.to_int_inj.
Qed.

Lemma assoc_set_same {A} (key : string) (v : A) (l : list (string * A)) :
  assoc key (assoc_set key v l) = Some v.
Proof.
  induction l as [|[k w] l IH]; simpl.
  - now rewrite String.eqb_refl.
  - destruct (String.eqb key k) eqn:E; simpl; rewrite E; auto.
Qed.

Lemma assoc_set_other {A} (key key' : string) (v : A)
      (l : list (string * A)) :
  key <> key' -> assoc key (assoc_set key' v l) = assoc key l.
Proof.
  intros Hne. induction l as [|[k w] l IH]; simpl.
  - destruct (String.eqb_spec key key'); [contradiction | reflexivity].
  - destruct (String.eqb_spec key' k) as [Hk|Hk]; simpl.
    + destruct (String.eqb_spec key k); [congruence | reflexivity].
    + now rewrite IH.
Qed.

Lemma assoc_None {A} (key : string) (l : list (string * A)) :
  ~ In key (map fst l) -> assoc key l = None.
Proof.
  induction l as [|[k w] l IH]; simpl; intros Hn; [reflexivity|].
  destruct (String.eqb_spec key k) as [->|Hk].
  - exfalso. apply Hn. now left.
  - apply IH. intros Hin. apply Hn. now right.
Qed.

Lemma mapM_Ok_map {A B} (f : A -> result B) (g : A -> B) (xs : list A) :
  (forall x, In x xs -> f x = Ok (g x)) -> mapM f xs = Ok (map g xs).
Proof.
  induction xs as [|x xs IH]; intros Hf; simpl; [reflexivity|].
  rewrite (Hf x) by now left. simpl.
  rewrite IH by (intros y Hy; apply Hf; now right). reflexivity.
Qed.

Lemma mapM_Ok_Forall2 {A B} (f : A -> result B) (xs : list A)
      (ys : list B) :
  mapM f xs = Ok ys <-> Forall2 (fun x y => f x = Ok y) xs ys.
Proof.
  revert ys. induction xs as [|x xs IH]; intros ys; simpl.
  - split.
    + intros [= <-]. constructor.
    + intros Hf. inversion Hf. reflexivity.
  - destruct (f x) as [y|e] eqn:Ex; simpl.
    + destruct (mapM f xs) as [zs|e] eqn:Em; simpl.
      * split.
        -- intros [= <-]. constructor; [exact Ex | now apply IH].
        -- intros Hf. inversion Hf as [|? y' ? zs' Hy Hzs]; subst.
           apply IH in Hzs. congruence.
      * split; [discriminate|].
        intros Hf. inversion Hf as [|? y' ? zs' Hy Hzs]; subst.
        apply IH in Hzs. discriminate.
    + split; [discriminate|].
      intros Hf. inversion Hf; subst. congruence.
Qed.


End PyFacts.
Import PyFacts.

(** ** The constructor *)

Section Construction.
Context `{Float64} {CO : Collaborators}.

Lemma length_zip_with (f : float -> float -> float) (a b : list float) :
  length (zip_with f a b) = Nat.min (length a) (length b).
Proof.
  revert b. induction a as [|x a IH]; intros [|y b]; simpl; auto.
Qed.

Lemma nth_error_zip_with (f : float -> float -> float) (a b : list float)
      (j : nat) (x y : float) :
  nth_error a j = Some x -> nth_error b j = Some y ->
  nth_error (zip_with f a b) j = Some (f x y).
Proof.
  revert b j. induction a as [|x' a IH]; intros [|y' b] [|j]; simpl;
    try discriminate.
  - now intros [= ->] [= ->].
  - apply IH.
Qed.

Lemma divide_row_same_length (r w : list float) :
  length r = length w -> divide_row r w = Ok (zip_with fdiv r w).
Proof. intros E. unfold divide_row. now rewrite E, Nat.eqb_refl. Qed.

(** With one weight per feature, numpy's [/] is the element-wise
    quotient of every row. *)
Lemma divide_per_feature (a : ndarray2) (w : ndarray1) :
  Forall (fun r => length r = length w) a ->
  divide a w = Ok (elementwise_div a w).
Proof.
  intros Ha. unfold divide, elementwise_div.
  apply mapM_Ok_map. intros r Hr.
  apply divide_row_same_length.
  rewrite Forall_forall in Ha. now apply Ha.
Qed.

Lemma elementwise_div_shape (a : ndarray2) (w : ndarray1) (k : nat) :
  has_shape a k (length w) -> has_shape (elementwise_div a w) k (length w).
Proof.
  intros [Hk Hrows]. split.
  - unfold elementwise_div. now rewrite length_map.
  - unfold elementwise_div. apply Forall_map.
    eapply Forall_impl; [|exact Hrows].
    intros r Hr. simpl. rewrite length_zip_with, Hr. apply Nat.min_id.
Qed.

(** The entry of the quotient at row [i], column [j]. *)
Lemma elementwise_div_entry (a : ndarray2) (w : ndarray1) (i j : nat)
      (r : list float) (c y : float) :
  nth_error a i = Some r -> nth_error r j = Some c ->
  nth_error w j = Some y ->
  exists r', nth_error (elementwise_div a w) i = Some r'
             /\ nth_error r' j = Some (fdiv c y).
Proof.
  intros Hi Hj Hw. unfold elementwise_div.
  exists (zip_with fdiv r w). split.
  - rewrite nth_error_map, Hi. reflexivity.
  - now apply nth_error_zip_with.
Qed.

(** The constructor once the parent class, the fit and the transform
    have returned: only the choice of the loadings is left. *)
Lemma init_after_fit ds m kw b p s :
  BaseModel__init__ ds m = Ok b ->
  PCA_fit kw (bm_X b) = Ok p ->
  PCA_transform p (bm_X b) = Ok s ->
  PCA_Model__init__ ds m kw =
  (l <- (if is_not_None (bm_scaling_method b) && py_ne m "standard"
         then w <- get_weights b ;; divide (components_ p) w
         else Ok (components_ p)) ;;
   Ok {| dataset := bm_dataset b; scaling_method := bm_scaling_method b;
         X := bm_X b; weights := bm_weights b;
         pca := p; pc := s; loadings := l |}).
Proof.
  intros Hb Hp Hs. unfold PCA_Model__init__.
  rewrite Hb. simpl. rewrite Hp. simpl. rewrite Hs. reflexivity.
Qed.

Lemma py_ne_standard (m : option string) :
  py_ne m "standard" = false <-> m = Some "standard"%string.
Proof.
  destruct m as [t|]; simpl.
  - rewrite negb_false_iff. split.
    + intros E. apply String.eqb_eq in E. now subst.
    + intros [= ->]. reflexivity.
  - split; discriminate.
Qed.

(** C1. At construction the stored loadings are the fitted component
    vectors divided element-wise by the weight vector when the scaling
    method is neither None nor 'standard', and the component vectors
    unchanged when it is None or 'standard'.  The parent class is taken
    to store the method it is given and to give one weight per feature
    of its matrix, and scikit-learn to keep to its shapes, so that every
    component has one entry per feature. *)
Theorem init_loadings_descaled ds m kw b p s :
  sklearn_shapes ->
  BaseModel__init__ ds m = Ok b ->
  bm_scaling_method b = m ->
  PCA_fit kw (bm_X b) = Ok p ->
  PCA_transform p (bm_X b) = Ok s ->
  (m = None \/ m = Some "standard"%string ->
     exists model, PCA_Model__init__ ds m kw = Ok model
                   /\ pca model = p
                   /\ loadings model = components_ (pca model))
  /\ (m <> None -> m <> Some "standard"%string ->
      forall w, bm_weights b = Some w ->
                length w = ncols (bm_X b) ->
      exists model, PCA_Model__init__ ds m kw = Ok model
                    /\ pca model = p
                    /\ weights model = Some w
                    /\ loadings model
                       = elementwise_div (components_ (pca model)) w).
Proof.
  intros [Hfit _] Hb Hm Hp Hs.
  destruct (Hfit _ _ _ Hp) as ([_ Hwide] & _ & _).
  rewrite (init_after_fit _ _ _ Hb Hp Hs), Hm.
  split.
  - intros [-> | ->]; simpl; eexists; repeat split; reflexivity.
  - intros Hnone Hstd w Hw Hlw.
    assert (Hlen : Forall (fun r => length r = length w) (components_ p))
      by (now rewrite Hlw).
    destruct m as [t|]; [|contradiction]. simpl.
    destruct (negb (t =? "standard")%string) eqn:E.
    + unfold get_weights. rewrite Hw. simpl.
      rewrite (divide_per_feature _ Hlen). simpl.
      eexists; repeat split; simpl; auto.
    + exfalso. apply Hstd. apply py_ne_standard. exact E.
Qed.

(** C6. A data set of 10 samples with a 10 x 50 feature matrix, built
    with scaling_method="auto" and n_components=3: the model has
    pca.n_components_ = 3, scores of shape (10, 3) and loadings of shape
    (3, 50).  scikit-learn is taken to keep to its documented shapes and
    the parent class to hand over the matrix with one weight per
    feature. *)
Theorem init_shapes_10x50 ds kw b w p s :
  sklearn_shapes ->
  BaseModel__init__ ds (Some "auto"%string) = Ok b ->
  bm_scaling_method b = Some "auto"%string ->
  has_shape (bm_X b) 10 50 ->
  bm_weights b = Some w -> length w = 50%nat ->
  assoc "n_components" kw = Some (VInt 3) ->
  PCA_fit kw (bm_X b) = Ok p ->
  PCA_transform p (bm_X b) = Ok s ->
  exists model,
    PCA_Model__init__ ds (Some "auto"%string) kw = Ok model
    /\ n_components_ (pca model) = 3%nat
    /\ has_shape (pc model) 10 3
    /\ has_shape (loadings model) 3 50.
Proof.
  intros [Hfit Htrans] Hb Hm [HX1 HX2] Hw Hlw Hkw Hp Hs.
  destruct (Hfit _ _ _ Hp) as (Hcomp & _ & Hn).
  specialize (Hn 3%nat Hkw).
  assert (Hcols : ncols (bm_X b) = 50%nat).
  { destruct (bm_X b) as [|r X']; [discriminate HX1|].
    simpl. now inversion HX2. }
  rewrite Hn, Hcols in Hcomp.
  pose proof (Htrans _ _ _ Hs) as Hpc.
  unfold nrows in Hpc. rewrite HX1, Hn in Hpc.
  rewrite (init_after_fit _ _ _ Hb Hp Hs), Hm. simpl.
  unfold get_weights. rewrite Hw. simpl.
  rewrite <- Hlw in Hcomp.
  rewrite (divide_per_feature _ (proj2 Hcomp)). simpl.
  eexists. split; [reflexivity|]. simpl.
  split; [exact Hn | split; [exact Hpc|]].
  rewrite <- Hlw. apply elementwise_div_shape. exact Hcomp.
Qed.

End Construction.

(** ** Running statements in the store *)

Section Running.
Context `{Float64} {MPL : Matplotlib}.

Lemma bind_assoc {A B C} (c : M A) (k1 : A -> M B) (k2 : B -> M C)
      (st : Store) :
  (y <- (x <- c ;; k1 x) ;; k2 y) st = (x <- c ;; y <- k1 x ;; k2 y) st.
Proof.
  cbn [bind Monad_M]. destruct (c st) as [[a|e] st']; reflexivity.
Qed.

Lemma run_attr {A B} (f : PCA_Model -> A) (k : A -> M B) (st : Store) :
  (x <- attr f ;; k x) st = k (f (self st)) st.
Proof. reflexivity. Qed.

Lemma run_ret {A B} (a : A) (k : A -> M B) (st : Store) :
  (x <- ret a ;; k x) st = k a st.
Proof. reflexivity. Qed.

Lemma run_lift_Ok {A B} (r : result A) (a : A) (k : A -> M B) (st : Store) :
  r = Ok a -> (x <- lift r ;; k x) st = k a st.
Proof. intros ->. reflexivity. Qed.

Lemma run_lift_Raise {A B} (r : result A) (e : exn) (k : A -> M B)
      (st : Store) :
  r = Raise e -> (x <- lift r ;; k x) st = (Raise e, st).
Proof. intros ->. reflexivity. Qed.

Lemma run_bind_Ok {A B} (c : M A) (k : A -> M B) (st st' : Store) (a : A) :
  c st = (Ok a, st') -> (x <- c ;; k x) st = k a st'.
Proof. intros E. cbn [bind Monad_M]. now rewrite E. Qed.

Lemma run_subplots {B} (w h : Z) (k : nat -> M B) m old s :
  (fig <- plt_subplots w h ;; k fig) (Build_Store m old s)
  = k (length old) (Build_Store m (old ++ [new_figure (Some (w, h)) s]) s).
Proof. reflexivity. Qed.

Lemma update_nth_last {A} (f : A -> A) (old : list A) (g : A) :
  update_nth (length old) f (old ++ [g]) = old ++ [f g].
Proof. induction old as [|a old IH]; simpl; [reflexivity | now rewrite IH]. Qed.

Lemma run_on_axes {B} (f : Figure -> Figure) (k : unit -> M B) m old g s :
  (u <- on_axes (length old) f ;; k u) (Build_Store m (old ++ [g]) s)
  = k tt (Build_Store m (old ++ [f g]) s).
Proof.
  unfold on_axes. cbn [bind Monad_M figures set_figures self rc_style].
  now rewrite update_nth_last.
Qed.

Lemma run_on_current {B} (f : Figure -> Figure) (k : unit -> M B)
      m old g s :
  (u <- on_current f ;; k u) (Build_Store m (old ++ [g]) s)
  = k tt (Build_Store m (old ++ [f g]) s).
Proof.
  unfold on_current. cbn [bind Monad_M figures set_figures self rc_style].
  destruct (old ++ [g]) as [|a l] eqn:E.
  - destruct old; discriminate.
  - rewrite <- E.
    replace (length (old ++ [g]) - 1)%nat with (length old)
      by (rewrite length_app; simpl; lia).
    now rewrite update_nth_last.
Qed.

Lemma run_current_figure {B} (k : Figure -> M B) m old g s :
  (x <- current_figure ;; k x) (Build_Store m (old ++ [g]) s)
  = k g (Build_Store m (old ++ [g]) s).
Proof.
  unfold current_figure. cbn [bind Monad_M figures set_figures self rc_style].
  destruct (old ++ [g]) as [|a l] eqn:E.
  - destruct old; discriminate.
  - rewrite <- E, last_last. reflexivity.
Qed.

Lemma run_colorbar {B} (k : unit -> M B) m old g s :
  existsb is_image (artists g) = true ->
  (u <- plt_colorbar ;; k u) (Build_Store m (old ++ [g]) s)
  = k tt (Build_Store m (old ++ [set_colorbar g]) s).
Proof.
  intros Himg. unfold plt_colorbar. rewrite bind_assoc.
  rewrite run_current_figure, Himg. apply run_on_current.
Qed.

Lemma run_get_ticks {B} (ax : Axis) (k : list float -> M B) m old g s :
  (x <- plt_get_ticks ax ;; k x) (Build_Store m (old ++ [g]) s)
  = k (match ticks_of ax g with
       | TFixed locs _ => map num_to_float locs
       | _ => auto_ticks ax g
       end) (Build_Store m (old ++ [g]) s).
Proof.
  unfold plt_get_ticks. rewrite bind_assoc.
  now rewrite run_current_figure.
Qed.

Lemma run_plot {B} (xs : list Z) (ys : list float) (label : string)
      (k : unit -> M B) m old g s :
  length xs = length ys ->
  (u <- ax_plot (length old) xs ys label ;; k u) (Build_Store m (old ++ [g]) s)
  = k tt (Build_Store m (old ++ [add_artist (ALine xs ys label) g]) s).
Proof.
  intros E. unfold ax_plot. rewrite E, Nat.eqb_refl. apply run_on_axes.
Qed.

Lemma run_scatterplot {B} (x y : string) (data : DataFrame)
      (hue style : string) (size : Z) xs ys hues styles
      (k : unit -> M B) m old g s :
  df_column data x = Ok xs -> df_column data y = Ok ys ->
  df_column data hue = Ok hues -> df_column data style = Ok styles ->
  (u <- sns_scatterplot (length old) x y data hue style size ;; k u)
    (Build_Store m (old ++ [g]) s)
  = k tt (Build_Store m
            (old ++ [set_label YAxis (y, None)
                       (set_label XAxis (x, None)
                          (add_artist (AScatter xs ys hues styles size) g))])
            s).
Proof.
  intros Hx Hy Hh Hs. unfold sns_scatterplot.
  cbn [bind Monad_M lift]. rewrite Hx, Hy, Hh, Hs.
  unfold on_axes. cbn [figures set_figures self rc_style].
  now rewrite update_nth_last.
Qed.

(** A style that exists: the body runs under it and the style active
    before is put back. *)
Lemma run_style_context {A} (style : string) (body : M A) (st : Store) :
  style_available style = true ->
  style_context style body st
  = (fst (body (set_rc_style style st)),
     set_rc_style (rc_style st) (snd (body (set_rc_style style st)))).
Proof.
  intros Hs. unfold style_context. rewrite Hs.
  now destruct (body (set_rc_style style st)).
Qed.

Lemma run_style_context_Ok {A} (style : string) (body : M A)
      (st st' : Store) (r : result A) :
  style_available style = true ->
  body (set_rc_style style st) = (r, st') ->
  style_context style body st = (r, set_rc_style (rc_style st) st').
Proof.
  intros Hs Hb. rewrite (run_style_context _ _ _ Hs), Hb. reflexivity.
Qed.

End Running.

(** ** loadings_plot *)

Section Loadings.
Context `{Float64} {MPL : Matplotlib}.

(** The run of [loadings_plot] when nothing raises: it returns the
    number of the new figure, which is appended to the figures. *)
Lemma loadings_plot_run PC cr w h m old s first v data rt dt :
  Dataset__getitem__ (dataset m) 0 = Ok first ->
  row (loadings m) (PC - 1) = Ok v ->
  reshape v (length (ret_time first)) (length (drift_time first))
  = Ok data ->
  rt_tick_labels (ret_time first)
    (kept_ticks YAxis (heatmap_canvas w h s data cr)) = Ok rt ->
  dt_tick_labels (drift_time first)
    (kept_ticks XAxis (heatmap_canvas w h s data cr)) = Ok dt ->
  loadings_plot PC cr w h (Build_Store m old s)
  = (Ok (length old),
     Build_Store m
       (old ++ [loadings_figure PC first (heatmap_canvas w h s data cr)
                  (kept_ticks XAxis (heatmap_canvas w h s data cr))
                  (kept_ticks YAxis (heatmap_canvas w h s data cr))
                  dt rt]) s).
Proof.
  unfold kept_ticks. intros Hfirst Hrow Hshape Hrt Hdt. unfold loadings_plot.
  rewrite run_attr. cbn [self]. rewrite (run_lift_Ok _ _ Hfirst).
  rewrite run_attr. cbn [self]. rewrite (run_lift_Ok _ _ Hfirst).
  rewrite run_attr. cbn [self]. rewrite (run_lift_Ok _ _ Hrow).
  rewrite (run_lift_Ok _ _ Hshape).
  rewrite run_subplots.
  unfold plt_imshow. rewrite run_on_current.
  rewrite run_colorbar
    by (cbn [artists add_artist new_figure app existsb is_image]; reflexivity).
  fold (heatmap_canvas w h s data cr).
  rewrite run_get_ticks. cbn [ticks_of heatmap_canvas set_colorbar xticks
                              add_artist new_figure].
  fold (heatmap_canvas w h s data cr).
  rewrite run_get_ticks. cbn [ticks_of heatmap_canvas set_colorbar yticks
                              add_artist new_figure].
  fold (heatmap_canvas w h s data cr).
  rewrite (run_lift_Ok _ _ Hrt), (run_lift_Ok _ _ Hdt).
  unfold plt_set_ticks. rewrite !run_on_current.
  unfold ax_set_minor_locator. rewrite !run_on_axes.
  rewrite run_attr. cbn [self]. rewrite (run_lift_Ok _ _ Hfirst).
  unfold plt_xlabel, plt_ylabel, plt_title. rewrite !run_on_current.
  reflexivity.
Qed.

(** An exception of the row selection or of the reshape leaves the
    method before any figure is made. *)
Lemma loadings_plot_row_raises PC cr w h st first e :
  Dataset__getitem__ (dataset (self st)) 0 = Ok first ->
  row (loadings (self st)) (PC - 1) = Raise e ->
  loadings_plot PC cr w h st = (Raise e, st).
Proof.
  intros Hfirst Hrow. unfold loadings_plot.
  rewrite run_attr, (run_lift_Ok _ _ Hfirst).
  rewrite run_attr, (run_lift_Ok _ _ Hfirst).
  rewrite run_attr. now rewrite (run_lift_Raise _ _ Hrow).
Qed.

Lemma loadings_plot_reshape_raises PC cr w h st first v e :
  Dataset__getitem__ (dataset (self st)) 0 = Ok first ->
  row (loadings (self st)) (PC - 1) = Ok v ->
  reshape v (length (ret_time first)) (length (drift_time first))
  = Raise e ->
  loadings_plot PC cr w h st = (Raise e, st).
Proof.
  intros Hfirst Hrow Hshape. unfold loadings_plot.
  rewrite run_attr, (run_lift_Ok _ _ Hfirst).
  rewrite run_attr, (run_lift_Ok _ _ Hfirst).
  rewrite run_attr, (run_lift_Ok _ _ Hrow).
  now rewrite (run_lift_Raise _ _ Hshape).
Qed.

Lemma first_spectrum (ds : Dataset) (first : Spectrum) rest :
  spectra ds = first :: rest -> Dataset__getitem__ ds 0 = Ok first.
Proof.
  intros E. unfold Dataset__getitem__. rewrite E.
  apply getitem_inside; [lia | reflexivity].
Qed.


Lemma reshape_Raise (v : list float) (r c : nat) :
  length v <> (r * c)%nat -> reshape v r c = Raise ValueError.
Proof.
  intros E. unfold reshape.
  destruct (Nat.eqb_spec (length v) (r * c)); [contradiction | reflexivity].
Qed.





(** C3. For a valid component index, [loadings_plot] succeeds only if
    the selected loading vector has as many entries as the first
    spectrum has retention times times drift times; with any other
    length the reshape raises its shape error (a ValueError). *)
Theorem loadings_plot_needs_grid st PC cr w h first rest v :
  spectra (dataset (self st)) = first :: rest ->
  1 <= PC ->
  nth_error (loadings (self st)) (Z.to_nat (PC - 1)) = Some v ->
  (forall fig st', loadings_plot PC cr w h st = (Ok fig, st') ->
     length v
     = (length (ret_time first) * length (drift_time first))%nat)
  /\ (length v
      <> (length (ret_time first) * length (drift_time first))%nat ->
      loadings_plot PC cr w h st = (Raise ValueError, st)).
Proof.
  intros Hsp HPC Hv.
  assert (Hfirst : Dataset__getitem__ (dataset (self st)) 0 = Ok first)
    by (eapply first_spectrum; eassumption).
  assert (Hrow : row (loadings (self st)) (PC - 1) = Ok v)
    by (apply getitem_inside; [lia | exact Hv]).
  assert (Herr : length v
                 <> (length (ret_time first) * length (drift_time first))%nat ->
                 loadings_plot PC cr w h st = (Raise ValueError, st)).
  { intros Hne.
    eapply loadings_plot_reshape_raises;
      [exact Hfirst | exact Hrow | now apply reshape_Raise]. }
  split; [|exact Herr].
  intros fig st' Hrun.
  destruct (Nat.eq_dec (length v)
              (length (ret_time first) * length (drift_time first)))
    as [E|Hne]; [exact E|].
  rewrite (Herr Hne) in Hrun. discriminate.
Qed.



End Loadings.

(** ** scatter_plot *)

Section Scatter.
Context `{Float64} {MPL : Matplotlib}.

Lemma PC_name_inj (a b : Z) : PC_name a = PC_name b -> a = b.
Proof.
  unfold PC_name. cbn [append]. intros E.
  injection E as E. now apply str_inj.
Qed.

Lemma PC_name_not_Sample (a : Z) : PC_name a <> "Sample"%string.
Proof. unfold PC_name. cbn [append]. discriminate. Qed.

Lemma PC_name_not_Label (a : Z) : PC_name a <> "Label"%string.
Proof. unfold PC_name. cbn [append]. discriminate. Qed.

(** The loop over [range(1, n + 1)] that fills [expl_var] visits every
    ratio once, in order. *)
Lemma expl_var_loop (F : float -> float) (pre l : list float) :
  mapM (fun i => r <- getitem (pre ++ l) (i - 1) ;; ret (F r))
       (map (fun k => Z.of_nat (S k)) (seq (length pre) (length l)))
  = Ok (map F l).
Proof.
  revert pre. induction l as [|x l IH]; intros pre; [reflexivity|].
  cbn [length seq map].
  change (mapM ?f (?a :: ?xs))
    with (rbind (f a) (fun y => rbind (mapM f xs) (fun ys => Ok (y :: ys)))).
  assert (Hx : getitem (pre ++ x :: l) (Z.of_nat (S (length pre)) - 1) = Ok x).
  { apply getitem_inside; [lia|].
    replace (Z.to_nat (Z.of_nat (S (length pre)) - 1)) with (length pre) by lia.
    rewrite nth_error_app2 by lia. now rewrite Nat.sub_diag. }
  specialize (IH (pre ++ [x])).
  rewrite <- app_assoc, length_app in IH. cbn [app length] in IH.
  replace (length pre + 1)%nat with (S (length pre)) in IH by lia.
  cbn [bind ret Monad_result] in IH |- *.
  rewrite Hx, IH. reflexivity.
Qed.

Lemma expl_var_Ok (ratio : list float) (n : nat) :
  length ratio = n ->
  mapM (fun i => r <- getitem ratio (i - 1) ;;
                 ret (round_nd (fmul_int r 100) 1))
       (range 1 (Z.of_nat n + 1))
  = Ok (map percent ratio).
Proof.
  intros <-. rewrite range_1_succ.
  apply (expl_var_loop percent [] ratio).
Qed.

Lemma getitem_map {A B} (f : A -> B) (l : list A) (k : Z) (a : A) :
  getitem l k = Ok a -> getitem (map f l) k = Ok (f a).
Proof.
  unfold getitem. rewrite length_map.
  destruct ((0 <=? (if k <? 0 then k + Z.of_nat (length l) else k))
            && ((if k <? 0 then k + Z.of_nat (length l) else k)
                <? Z.of_nat (length l))); [|discriminate].
  rewrite nth_error_map.
  destruct (nth_error l _); [|discriminate].
  now intros [= ->].
Qed.

Lemma length_column_of (data : ndarray2) (k : nat) :
  Forall (fun r => (k < length r)%nat) data ->
  length (column_of data k) = length data.
Proof.
  induction 1 as [|r data Hr _ IH]; [reflexivity|].
  unfold column_of in *. cbn [flat_map].
  destruct (nth_error r k) eqn:E.
  - cbn [app length]. now rewrite IH.
  - apply nth_error_None in E. lia.
Qed.

Lemma names_as_map (n : nat) :
  map PC_name (range 1 (Z.of_nat n + 1))
  = map (fun k => PC_name (Z.of_nat (S k))) (seq 0 n).
Proof. rewrite range_1_succ. apply map_map. Qed.

Lemma combine_map_map {A B C} (f : A -> B) (g : A -> C) (l : list A) :
  combine (map f l) (map g l) = map (fun a => (f a, g a)) l.
Proof. induction l as [|a l IH]; simpl; [reflexivity | now rewrite IH]. Qed.

(** [pd.DataFrame(data=self.pc, columns=[f"PC {x}" for x in ...])] *)
Lemma DataFrame_new_names (data : ndarray2) (n : nat) :
  DataFrame_new data (map PC_name (range 1 (Z.of_nat n + 1)))
  = if (ncols data =? n)%nat
    then Ok {| df_index := nrows data; df_columns := score_columns data n |}
    else Raise ValueError.
Proof.
  unfold DataFrame_new.
  rewrite names_as_map, length_map, length_seq.
  unfold score_columns. now rewrite combine_map_map.
Qed.

Lemma DataFrame_new_scores (data : ndarray2) (r n : nat) :
  has_shape data r n -> (0 < r)%nat ->
  DataFrame_new data (map PC_name (range 1 (Z.of_nat n + 1)))
  = Ok {| df_index := nrows data; df_columns := score_columns data n |}.
Proof.
  intros [Hr Hrows] Hpos. rewrite DataFrame_new_names.
  assert (Hc : ncols data = n).
  { destruct data as [|row data]; [simpl in Hr; lia|].
    simpl. now inversion Hrows. }
  now rewrite Hc, Nat.eqb_refl.
Qed.

Lemma assoc_score_columns (data : ndarray2) (n : nat) (x : Z) :
  1 <= x <= Z.of_nat n ->
  assoc (PC_name x) (score_columns data n)
  = Some (column_of data (Z.to_nat (x - 1))).
Proof.
  intros Hx. unfold score_columns.
  assert (Hgen : forall len start,
             (start <= Z.to_nat (x - 1) < start + len)%nat ->
             assoc (PC_name x)
                   (map (fun k => (PC_name (Z.of_nat (S k)), column_of data k))
                        (seq start len))
             = Some (column_of data (Z.to_nat (x - 1)))).
  { induction len as [|len IH]; intros start Hs; [lia|].
    cbn [seq map assoc].
    destruct (String.eqb_spec (PC_name x) (PC_name (Z.of_nat (S start))))
      as [E|E].
    - apply PC_name_inj in E.
      replace (Z.to_nat (x - 1)) with start by lia. reflexivity.
    - apply IH.
      assert (Z.to_nat (x - 1) <> start)
        by (intros <-; apply E; f_equal; lia).
      lia. }
  apply Hgen. lia.
Qed.

Lemma score_columns_names (data : ndarray2) (n : nat) (x : Z) :
  In (PC_name x) (map fst (score_columns data n)) -> 1 <= x <= Z.of_nat n.
Proof.
  unfold score_columns. rewrite map_map. cbn [fst].
  intros Hin. apply in_map_iff in Hin.
  destruct Hin as (k & E & Hk).
  apply PC_name_inj in E. apply in_seq in Hk. lia.
Qed.

Lemma df_column_PC (m : PCA_Model) (x : Z) :
  1 <= x <= Z.of_nat (n_components_ (pca m)) ->
  df_column (score_frame m) (PC_name x)
  = Ok (column_of (pc m) (Z.to_nat (x - 1))).
Proof.
  intros Hx. unfold df_column, score_frame. cbn [df_columns].
  rewrite assoc_set_other by apply PC_name_not_Label.
  rewrite assoc_set_other by apply PC_name_not_Sample.
  now rewrite assoc_score_columns.
Qed.

(** Outside 1..n there is no column of that name. *)
Lemma df_column_PC_missing (m : PCA_Model) (x : Z) :
  ~ 1 <= x <= Z.of_nat (n_components_ (pca m)) ->
  df_column (score_frame m) (PC_name x) = Raise ValueError.
Proof.
  intros Hx. unfold df_column, score_frame. cbn [df_columns].
  rewrite assoc_set_other by apply PC_name_not_Label.
  rewrite assoc_set_other by apply PC_name_not_Sample.
  rewrite assoc_None; [reflexivity|].
  intros Hin. apply Hx. eapply score_columns_names. exact Hin.
Qed.

Lemma df_column_Sample (m : PCA_Model) :
  df_column (score_frame m) "Sample"
  = Ok (map CS (samples (dataset m))).
Proof.
  unfold df_column, score_frame. cbn [df_columns].
  rewrite assoc_set_other by discriminate.
  now rewrite assoc_set_same.
Qed.

Lemma df_column_Label (m : PCA_Model) :
  df_column (score_frame m) "Label" = Ok (map CS (labels (dataset m))).
Proof.
  unfold df_column, score_frame. cbn [df_columns].
  now rewrite assoc_set_same.
Qed.

Lemma Forall_assoc_set {A} (P : string * A -> Prop) (key : string) (v : A)
      (l : list (string * A)) :
  (forall k, P (k, v)) -> Forall P l -> Forall P (assoc_set key v l).
Proof.
  intros Hv. induction 1 as [|[k w] l Hk Hl IH]; cbn [assoc_set].
  - constructor; [apply Hv | constructor].
  - destruct (String.eqb key k); constructor; auto.
Qed.

(** Every column of the table has one entry per row. *)
Lemma score_frame_full (m : PCA_Model) :
  fitted m ->
  Forall (fun nc => length (snd nc) = df_index (score_frame m))
         (df_columns (score_frame m)).
Proof.
  intros [_ _ [Hrows Hcols] _ Hlab]. unfold score_frame.
  cbn [df_index df_columns]. unfold nrows.
  apply Forall_assoc_set.
  { intros k. cbn [snd]. rewrite length_map. congruence. }
  apply Forall_assoc_set.
  { intros k. cbn [snd]. rewrite length_map. congruence. }
  unfold score_columns. apply Forall_map, Forall_forall.
  intros k Hk. cbn [snd]. apply in_seq in Hk.
  apply length_column_of.
  eapply Forall_impl; [|exact Hcols].
  intros r Hr. cbn beta in Hr. lia.
Qed.

Lemma assoc_row (cols : list (string * list Cell)) (i : nat)
      (name : string) (col : list Cell) :
  Forall (fun nc => (i < length (snd nc))%nat) cols ->
  assoc name cols = Some col ->
  exists c,
    assoc name (flat_map (fun nc => match nth_error (snd nc) i with
                                    | Some c => [(fst nc, c)]
                                    | None => []
                                    end) cols) = Some c.
Proof.
  induction 1 as [|[k col0] cols Hk _ IH]; cbn [assoc flat_map];
    [discriminate|].
  cbn [snd fst] in *.
  destruct (nth_error col0 i) as [c0|] eqn:E.
  - cbn [app assoc]. destruct (String.eqb name k).
    + intros _. now exists c0.
    + exact IH.
  - apply nth_error_None in E. lia.
Qed.

(** A row of the table answers for every column name of the table. *)
Lemma row_getitem_total (df : DataFrame) (i : nat) (name : string)
      (col : list Cell) :
  Forall (fun nc => length (snd nc) = df_index df) (df_columns df) ->
  (i < df_index df)%nat ->
  df_column df name = Ok col ->
  exists c, row_getitem (df_row df i) name = Ok c.
Proof.
  intros Hfull Hi Hcol. unfold df_column in Hcol.
  destruct (assoc name (df_columns df)) as [col'|] eqn:E; [|discriminate].
  destruct (@assoc_row (df_columns df) i name col') as [c Hc].
  - eapply Forall_impl; [|exact Hfull]. intros nc Hnc. cbn beta in Hnc. lia.
  - exact E.
  - exists c. unfold row_getitem, df_row. now rewrite Hc.
Qed.

(** The annotation loop: one text per row when every row has the three
    cells, none when [label] is off. *)
Lemma label_loop_run (nx ny : string) (rows : list (list (string * Cell)))
      m old s :
  (forall point, In point rows ->
     exists px py ps, row_getitem point nx = Ok px
                      /\ row_getitem point ny = Ok py
                      /\ row_getitem point "Sample" = Ok ps) ->
  forall g, exists texts,
    for_each rows
      (fun point =>
         px <- lift (row_getitem point nx) ;;
         py <- lift (row_getitem point ny) ;;
         ps <- lift (row_getitem point "Sample") ;;
         ax_text (length old) px py ps)
      (Build_Store m (old ++ [g]) s)
    = (Ok tt, Build_Store m (old ++ [draw_all texts g]) s).
Proof.
  induction rows as [|point rows IH]; intros Hrows g.
  - exists []. reflexivity.
  - destruct (Hrows point (or_introl eq_refl))
      as (px & py & ps & Hpx & Hpy & Hps).
    destruct (IH (fun p Hp => Hrows p (or_intror Hp))
                 (add_artist (AText px py ps) g)) as [texts Htexts].
    exists (AText px py ps :: texts).
    cbn [for_each]. rewrite bind_assoc, (run_lift_Ok _ _ Hpx).
    rewrite bind_assoc, (run_lift_Ok _ _ Hpy).
    rewrite bind_assoc, (run_lift_Ok _ _ Hps).
    unfold ax_text. rewrite run_on_axes. exact Htexts.
Qed.

Lemma xlabel_draw_all (texts : list Artist) (g : Figure) :
  xlabel (draw_all texts g) = xlabel g
  /\ ylabel (draw_all texts g) = ylabel g
  /\ fig_style (draw_all texts g) = fig_style g
  /\ artists (draw_all texts g) = artists g ++ texts.
Proof.
  revert g. induction texts as [|a texts IH]; intros g; cbn [draw_all fold_left].
  - now rewrite app_nil_r.
  - destruct (IH (add_artist a g)) as (Hx & Hy & Hs & Ha).
    unfold draw_all in *. rewrite Hx, Hy, Hs, Ha.
    cbn [add_artist xlabel ylabel fig_style artists].
    now rewrite <- app_assoc.
Qed.

(** The run of [scatter_plot] on a fitted model for two components
    there are and two grouping columns of the table. *)
Lemma scatter_plot_run PC_x PC_y w h hue style label m old s hues styles :
  fitted m ->
  style_available "seaborn" = true ->
  1 <= PC_x <= Z.of_nat (n_components_ (pca m)) ->
  1 <= PC_y <= Z.of_nat (n_components_ (pca m)) ->
  df_column (score_frame m) hue = Ok hues ->
  df_column (score_frame m) style = Ok styles ->
  exists texts vx vy,
    getitem (explained_variance_ratio_ (pca m)) (PC_x - 1) = Ok vx
    /\ getitem (explained_variance_ratio_ (pca m)) (PC_y - 1) = Ok vy
    /\ scatter_plot PC_x PC_y w h hue style label (Build_Store m old s)
       = (Ok (length old),
          Build_Store m
            (old ++ [draw_all texts
                       (scatter_figure PC_x PC_y w h
                          (column_of (pc m) (Z.to_nat (PC_x - 1)))
                          (column_of (pc m) (Z.to_nat (PC_y - 1)))
                          hues styles (percent vx) (percent vy))]) s).
Proof.
  intros Hfit Hsty Hx Hy Hhue Hstyle.
  pose proof (score_frame_full Hfit) as Hfull.
  destruct Hfit as [Hratio Hload Hpc Hpos Hlab].
  destruct (@getitem_total _ (explained_variance_ratio_ (pca m)) (PC_x - 1))
    as [vx Hvx]; [lia|].
  destruct (@getitem_total _ (explained_variance_ratio_ (pca m)) (PC_y - 1))
    as [vy Hvy]; [lia|].
  set (g0 := scatter_figure PC_x PC_y w h
               (column_of (pc m) (Z.to_nat (PC_x - 1)))
               (column_of (pc m) (Z.to_nat (PC_y - 1)))
               hues styles (percent vx) (percent vy)).
  assert (Hloop : exists texts,
             (if label then
                for_each (iterrows (score_frame m))
                  (fun point =>
                     px <- lift (row_getitem point (PC_name PC_x)) ;;
                     py <- lift (row_getitem point (PC_name PC_y)) ;;
                     ps <- lift (row_getitem point "Sample") ;;
                     ax_text (length old) px py ps)
              else ret tt) (Build_Store m (old ++ [g0]) "seaborn")
             = (Ok tt, Build_Store m (old ++ [draw_all texts g0]) "seaborn")).
  { destruct label; [|exists []; reflexivity].
    apply label_loop_run. intros point Hin.
    unfold iterrows in Hin. apply in_map_iff in Hin.
    destruct Hin as (i & <- & Hi). apply in_seq in Hi.
    destruct (@row_getitem_total (score_frame m) i (PC_name PC_x)
                (column_of (pc m) (Z.to_nat (PC_x - 1))) Hfull)
      as [px Hpx]; [lia | apply df_column_PC; exact Hx |].
    destruct (@row_getitem_total (score_frame m) i (PC_name PC_y)
                (column_of (pc m) (Z.to_nat (PC_y - 1))) Hfull)
      as [py Hpy]; [lia | apply df_column_PC; exact Hy |].
    destruct (@row_getitem_total (score_frame m) i "Sample"
                (map CS (samples (dataset m))) Hfull)
      as [ps Hps]; [lia | apply df_column_Sample |].
    now exists px, py, ps. }
  destruct Hloop as [texts Hloop].
  exists texts, vx, vy. split; [exact Hvx|]. split; [exact Hvy|].
  unfold scatter_plot.
  rewrite run_attr, run_attr. cbn [self].
  pose proof (@expl_var_Ok (explained_variance_ratio_ (pca m))
                           (n_components_ (pca m)) Hratio) as Hev.
  rewrite (run_lift_Ok _ _ Hev).
  rewrite run_attr, run_attr. cbn [self].
  pose proof (@DataFrame_new_scores (pc m) _ _ Hpc Hpos) as Hdf.
  rewrite (run_lift_Ok _ _ Hdf).
  rewrite run_attr. cbn [self].
  assert (Hs1 : forall cols,
             df_setitem {| df_index := nrows (pc m); df_columns := cols |}
                        "Sample" (map CS (samples (dataset m)))
             = Ok {| df_index := nrows (pc m);
                     df_columns := assoc_set "Sample"
                                     (map CS (samples (dataset m))) cols |}).
  { intros cols. unfold df_setitem. cbn [df_index df_columns].
    unfold nrows. rewrite length_map, (proj1 Hpc), Nat.eqb_refl.
    reflexivity. }
  rewrite (run_lift_Ok _ _ (Hs1 _)).
  rewrite run_attr. cbn [self].
  assert (Hs2 : forall cols,
             df_setitem {| df_index := nrows (pc m); df_columns := cols |}
                        "Label" (map CS (labels (dataset m)))
             = Ok {| df_index := nrows (pc m);
                     df_columns := assoc_set "Label"
                                     (map CS (labels (dataset m))) cols |}).
  { intros cols. unfold df_setitem. cbn [df_index df_columns].
    unfold nrows. rewrite length_map, (proj1 Hpc), Hlab, Nat.eqb_refl.
    reflexivity. }
  rewrite (run_lift_Ok _ _ (Hs2 _)).
  fold (score_frame m).
  rewrite (@run_style_context_Ok _ _ _ "seaborn"%string _ _
             (Build_Store m (old ++ [draw_all texts g0]) "seaborn")
             (Ok (length old)) Hsty); [reflexivity|].
  unfold set_rc_style. cbn [self figures rc_style].
  rewrite run_subplots.
  pose proof (@df_column_PC m PC_x Hx) as Hcx.
  pose proof (@df_column_PC m PC_y Hy) as Hcy.
  erewrite run_scatterplot; [|exact Hcx|exact Hcy|exact Hhue|exact Hstyle].
  unfold plt_legend. rewrite run_on_current.
  pose proof (@getitem_map _ _ percent _ _ _ Hvx) as Hpx.
  pose proof (@getitem_map _ _ percent _ _ _ Hvy) as Hpy.
  rewrite (run_lift_Ok _ _ Hpx).
  unfold plt_xlabel. rewrite run_on_current.
  rewrite (run_lift_Ok _ _ Hpy).
  unfold plt_ylabel. rewrite run_on_current.
  fold g0.
  erewrite run_bind_Ok; [|exact Hloop].
  reflexivity.
Qed.

(** C4. For a fitted model and components PC_x, PC_y in 1..n, the
    percentage in each axis label of [scatter_plot] is
    round(explained_variance_ratio_[PC - 1] * 100, 1) of the component
    plotted on that axis. *)
Theorem scatter_plot_axis_percent PC_x PC_y w h hue style label m old s :
  fitted m ->
  style_available "seaborn" = true ->
  1 <= PC_x <= Z.of_nat (n_components_ (pca m)) ->
  1 <= PC_y <= Z.of_nat (n_components_ (pca m)) ->
  hue = "Label"%string \/ hue = "Sample"%string ->
  style = "Label"%string \/ style = "Sample"%string ->
  exists g rx ry,
    scatter_plot PC_x PC_y w h hue style label (Build_Store m old s)
    = (Ok (length old), Build_Store m (old ++ [g]) s)
    /\ getitem (explained_variance_ratio_ (pca m)) (PC_x - 1) = Ok rx
    /\ getitem (explained_variance_ratio_ (pca m)) (PC_y - 1) = Ok ry
    /\ xlabel g
       = Some (("PC " ++ str PC_x ++ " ("
                  ++ fmt_float (round_nd (fmul_int rx 100) 1)
                  ++ " % of variance)")%string, None)
    /\ ylabel g
       = Some (("PC " ++ str PC_y ++ " ("
                  ++ fmt_float (round_nd (fmul_int ry 100) 1)
                  ++ " % of variance)")%string, None).
Proof.
  intros Hfit Hsty Hx Hy Hhue Hstyle.
  assert (Hcol : forall name, name = "Label"%string \/ name = "Sample"%string ->
                              exists col, df_column (score_frame m) name = Ok col).
  { intros name [-> | ->]; eexists;
      [apply df_column_Label | apply df_column_Sample]. }
  destruct (Hcol _ Hhue) as [hues Hhues].
  destruct (Hcol _ Hstyle) as [styles Hstyles].
  destruct (@scatter_plot_run PC_x PC_y w h hue style label m old s
                              hues styles Hfit Hsty Hx Hy Hhues Hstyles)
    as (texts & vx & vy & Hvx & Hvy & Hrun).
  eexists. exists vx, vy.
  split; [exact Hrun|]. split; [exact Hvx|]. split; [exact Hvy|].
  destruct (xlabel_draw_all texts
              (scatter_figure PC_x PC_y w h
                 (column_of (pc m) (Z.to_nat (PC_x - 1)))
                 (column_of (pc m) (Z.to_nat (PC_y - 1)))
                 hues styles (percent vx) (percent vy)))
    as (Hxl & Hyl & _).
  rewrite Hxl, Hyl. split; reflexivity.
Qed.

Lemma df_column_Raise (df : DataFrame) (name : string) (e : exn) :
  df_column df name = Raise e -> e = ValueError.
Proof.
  unfold df_column. destruct (assoc name (df_columns df)); [discriminate|].
  now intros [= <-].
Qed.

(** seaborn stops at the first of the two names that is not a column. *)
Lemma run_scatterplot_missing {B} (x y : string) (data : DataFrame)
      (hue style : string) (size : Z) (fig : nat) (k : unit -> M B)
      (st : Store) :
  df_column data x = Raise ValueError
  \/ df_column data y = Raise ValueError ->
  fst ((u <- sns_scatterplot fig x y data hue style size ;; k u) st)
  = Raise ValueError.
Proof.
  intros Hmiss. unfold sns_scatterplot. cbn [bind Monad_M lift].
  destruct (df_column data x) as [xs|e] eqn:Ex.
  - destruct Hmiss as [Hm|Hm]; [discriminate|]. now rewrite Hm.
  - apply df_column_Raise in Ex. now subst e.
Qed.

(** [scatter_plot] with a component outside 1..n: the table has no
    column of that name, and seaborn's ValueError ends the call before
    [expl_var] is indexed. *)
Lemma scatter_plot_missing_column PC_x PC_y w h hue style label st :
  length (explained_variance_ratio_ (pca (self st)))
  = n_components_ (pca (self st)) ->
  style_available "seaborn" = true ->
  ~ 1 <= PC_x <= Z.of_nat (n_components_ (pca (self st)))
  \/ ~ 1 <= PC_y <= Z.of_nat (n_components_ (pca (self st))) ->
  fst (scatter_plot PC_x PC_y w h hue style label st) = Raise ValueError.
Proof.
  intros Hratio Hsty Hout. unfold scatter_plot.
  rewrite run_attr, run_attr.
  pose proof (@expl_var_Ok _ _ Hratio) as Hev.
  rewrite (run_lift_Ok _ _ Hev).
  rewrite run_attr, run_attr, DataFrame_new_names.
  destruct (ncols (pc (self st)) =? n_components_ (pca (self st)))%nat;
    [|reflexivity].
  rewrite (run_lift_Ok _ _ eq_refl), run_attr.
  unfold df_setitem at 1. cbn [df_index df_columns].
  destruct (length (map CS (samples (dataset (self st))))
            =? nrows (pc (self st)))%nat; [|reflexivity].
  rewrite (run_lift_Ok _ _ eq_refl), run_attr.
  unfold df_setitem at 1. cbn [df_index df_columns].
  destruct (length (map CS (labels (dataset (self st))))
            =? nrows (pc (self st)))%nat; [|reflexivity].
  rewrite (run_lift_Ok _ _ eq_refl).
  fold (score_frame (self st)).
  rewrite (run_style_context _ _ _ Hsty). cbn [fst].
  destruct st as [m old s]. unfold set_rc_style. cbn [self figures rc_style].
  rewrite run_subplots.
  apply run_scatterplot_missing.
  cbn [self] in Hout.
  destruct Hout as [Hx|Hy]; [left|right]; now apply df_column_PC_missing.
Qed.

(** Where matplotlib has no "seaborn" style sheet the style context
    raises OSError, whatever the arguments, once the table is built. *)
Lemma scatter_plot_no_style PC_x PC_y w h hue style label st :
  fitted (self st) ->
  style_available "seaborn" = false ->
  scatter_plot PC_x PC_y w h hue style label st = (Raise OSError, st).
Proof.
  intros [Hratio Hload Hpc Hpos Hlab] Hsty.
  unfold scatter_plot.
  rewrite run_attr, run_attr.
  rewrite (run_lift_Ok _ _ (expl_var_Ok _ Hratio)).
  rewrite run_attr, run_attr.
  rewrite (run_lift_Ok _ _ (DataFrame_new_scores Hpc Hpos)).
  rewrite run_attr.
  unfold df_setitem at 1. cbn [df_index df_columns].
  unfold nrows at 1. rewrite length_map, (proj1 Hpc), Nat.eqb_refl.
  rewrite (run_lift_Ok _ _ eq_refl), run_attr.
  unfold df_setitem at 1. cbn [df_index df_columns].
  unfold nrows at 1. rewrite length_map, (proj1 Hpc), Hlab, Nat.eqb_refl.
  rewrite (run_lift_Ok _ _ eq_refl).
  unfold style_context. now rewrite Hsty.
Qed.

End Scatter.

(** ** scree_plot *)

Section Scree.
Context `{Float64} {MPL : Matplotlib}.

Lemma length_cumsum_from (acc : float) (y : list float) :
  length (cumsum_from acc y) = length y.
Proof.
  revert acc. induction y as [|b y IH]; intros acc; simpl; auto.
Qed.

Lemma length_cumsum (y : list float) : length (cumsum y) = length y.
Proof. destruct y; simpl; [|rewrite length_cumsum_from]; reflexivity. Qed.

(** Running sums of non-negative numbers never go down: each sum is
    again non-negative, so the next addend does not lower it. *)
Lemma cumsum_from_sorted (acc : float) (y : list float) :
  Float64_order -> fle fzero acc -> Forall (fle fzero) y ->
  Sorted fle (acc :: cumsum_from acc y).
Proof.
  intros Hord Hacc Hy. revert acc Hacc.
  induction Hy as [|b y Hb _ IH]; intros acc Hacc; cbn [cumsum_from].
  - repeat constructor.
  - pose proof (fadd_nonneg Hord _ _ Hacc Hb) as Hstep.
    constructor; [|now constructor].
    apply IH. exact (fle_trans Hord _ _ _ Hacc Hstep).
Qed.

Lemma cumsum_sorted (y : list float) :
  Float64_order -> Forall (fle fzero) y -> Sorted fle (cumsum y).
Proof.
  intros Hord Hy. destruct y as [|a y]; [constructor|].
  cbn [cumsum]. inversion Hy; subst.
  now apply cumsum_from_sorted.
Qed.

Lemma Sorted_map_mono (f : float -> float) (l : list float) :
  (forall a b, fle a b -> fle (f a) (f b)) ->
  Sorted fle l -> Sorted fle (map f l).
Proof.
  intros Hf. induction 1 as [|a l Hl IH Hhd]; cbn [map]; constructor.
  - exact IH.
  - destruct Hhd as [|b l' Hab]; cbn [map]; constructor. now apply Hf.
Qed.

(** The last running sum is the sum of all the entries. *)
Lemma cumsum_from_last (acc : float) (y : list float) :
  exists front, acc :: cumsum_from acc y = front ++ [fold_left fadd y acc].
Proof.
  revert acc. induction y as [|b y IH]; intros acc; cbn [cumsum_from fold_left].
  - now exists [].
  - destruct (IH (fadd acc b)) as [front Hfront].
    exists (acc :: front). now rewrite Hfront.
Qed.

Lemma cumsum_last (y : list float) (total : float) :
  sum_left y = Some total -> exists front, cumsum y = front ++ [total].
Proof.
  destruct y as [|a y]; [discriminate|]. cbn [sum_left cumsum].
  intros [= <-]. apply cumsum_from_last.
Qed.

(** The run of [scree_plot] with one ratio per component. *)
Lemma scree_plot_run w h style m old s :
  length (explained_variance_ratio_ (pca m)) = n_components_ (pca m) ->
  style_available style = true ->
  scree_plot w h style (Build_Store m old s)
  = (Ok (length old),
     Build_Store m
       (old ++ [scree_figure w h style
                  (range 1 (Z.of_nat (n_components_ (pca m)) + 1))
                  (explained_variance_ratio_ (pca m))]) s).
Proof.
  intros Hratio Hsty. unfold scree_plot.
  rewrite run_attr, run_attr. cbn [self].
  rewrite (@run_style_context_Ok _ _ _ style _ _
             (Build_Store m
                (old ++ [scree_figure w h style
                           (range 1 (Z.of_nat (n_components_ (pca m)) + 1))
                           (explained_variance_ratio_ (pca m))]) style)
             (Ok (length old)) Hsty); [reflexivity|].
  unfold set_rc_style. cbn [self figures rc_style].
  rewrite run_subplots. cbn [for_each].
  unfold ax_set_major_locator_integer.
  rewrite bind_assoc, run_on_axes, bind_assoc, run_on_axes, run_ret.
  unfold plt_set_ticks, plt_xlabel, plt_ylabel.
  rewrite !run_on_current.
  rewrite run_plot
    by (rewrite length_range, length_map, length_cumsum; lia).
  rewrite run_plot by (rewrite length_range, length_map; lia).
  unfold plt_legend. rewrite run_on_current.
  reflexivity.
Qed.

(** C5, as the code has it.  The cumulative series of [scree_plot] is
    the running sums of the explained-variance ratios in component order
    1..N, as percentages, and its last value is the sum of all the
    ratios, added from the left, as a percentage.  It never decreases
    when every ratio is a number that is not negative; ratios that are
    NaN, which make it fail, are not excluded by the code. *)
Theorem scree_plot_cumulative w h style m old s :
  length (explained_variance_ratio_ (pca m)) = n_components_ (pca m) ->
  style_available style = true ->
  exists g cumulative per_pc,
    scree_plot w h style (Build_Store m old s)
    = (Ok (length old), Build_Store m (old ++ [g]) s)
    /\ artists g
       = [ALine (range 1 (Z.of_nat (n_components_ (pca m)) + 1))
                cumulative "cumulative";
          ALine (range 1 (Z.of_nat (n_components_ (pca m)) + 1))
                per_pc "per PC"]
    /\ cumulative
       = map (fun v => fmul_int v 100)
             (cumsum (explained_variance_ratio_ (pca m)))
    /\ length cumulative = n_components_ (pca m)
    /\ (Float64_order ->
        Forall (fle fzero) (explained_variance_ratio_ (pca m)) ->
        Sorted fle cumulative)
    /\ (forall total,
          sum_left (explained_variance_ratio_ (pca m)) = Some total ->
          exists front, cumulative = front ++ [fmul_int total 100]).
Proof.
  intros Hratio Hsty.
  eexists. eexists. eexists.
  split; [apply scree_plot_run; assumption|].
  split; [reflexivity|]. split; [reflexivity|].
  split; [now rewrite length_map, length_cumsum|].
  split.
  - intros Hord Hpos.
    apply Sorted_map_mono; [apply (fmul_100_mono Hord)|].
    now apply cumsum_sorted.
  - intros total Htotal.
    destruct (cumsum_last _ Htotal) as [front Hfront].
    exists (map (fun v => fmul_int v 100) front).
    rewrite Hfront, map_app. reflexivity.
Qed.

End Scree.

(** ** The plot methods only read the model *)

Create HintDb frame.

Section Frame.
Context `{Float64} {MPL : Matplotlib}.

Lemma triple_bind_inv {A B} (I : Store -> Prop) (c : M A) (k : A -> M B)
      (Q : result B -> Store -> Prop) :
  preserves I c ->
  (forall e st, I st -> Q (Raise e) st) ->
  (forall a, triple I (k a) Q) ->
  triple I (x <- c ;; k x) Q.
Proof.
  intros Hc Herr Hk st HI. cbn [bind Monad_M].
  specialize (Hc st HI).
  destruct (c st) as [[a|e] st']; cbn [snd] in Hc.
  - now apply Hk.
  - cbn [fst snd]. now apply Herr.
Qed.

Lemma triple_ret {A} (I : Store -> Prop) (a : A)
      (Q : result A -> Store -> Prop) :
  (forall st, I st -> Q (Ok a) st) -> triple I (ret a) Q.
Proof. intros HQ st HI. now apply HQ. Qed.

Lemma preserves_bind {A B} (I : Store -> Prop) (c : M A) (k : A -> M B) :
  preserves I c -> (forall a, preserves I (k a)) ->
  preserves I (x <- c ;; k x).
Proof.
  intros Hc Hk st HI. cbn [bind Monad_M].
  specialize (Hc st HI).
  destruct (c st) as [[a|e] st']; cbn [snd] in *; [now apply Hk | exact Hc].
Qed.

Lemma preserves_ret {A} (I : Store -> Prop) (a : A) : preserves I (ret a).
Proof. intros st HI. exact HI. Qed.

Lemma preserves_lift {A} (I : Store -> Prop) (r : result A) :
  preserves I (lift r).
Proof. intros st HI. exact HI. Qed.

Lemma preserves_attr {A} (I : Store -> Prop) (f : PCA_Model -> A) :
  preserves I (attr f).
Proof. intros st HI. exact HI. Qed.

Lemma preserves_for_each {A} (I : Store -> Prop) (xs : list A)
      (body : A -> M unit) :
  (forall x, preserves I (body x)) -> preserves I (for_each xs body).
Proof.
  intros Hb. induction xs as [|x xs IH]; cbn [for_each].
  - apply preserves_ret.
  - apply preserves_bind; [apply Hb | intros _; exact IH].
Qed.

Lemma preserves_on_axes m0 old (f : Figure -> Figure) :
  preserves (with_figure m0 old) (on_axes (length old) f).
Proof.
  intros st [Hm [g Hg]]. split; [exact Hm|].
  exists (f g). unfold on_axes. cbn [snd figures set_figures].
  rewrite Hg. apply update_nth_last.
Qed.

Lemma preserves_on_current m0 old (f : Figure -> Figure) :
  preserves (with_figure m0 old) (on_current f).
Proof.
  intros st [Hm [g Hg]]. split.
  - unfold on_current. now destruct (figures st).
  - exists (f g). destruct st as [m fs s]. cbn [figures] in Hg. subst fs.
    pose proof (run_on_current (B := unit) f (fun _ => ret tt) m old g s) as E.
    cbn [bind ret Monad_M] in E.
    destruct (on_current f _) as [[[]|e] st']; cbn [snd].
    + now injection E as ->.
    + discriminate.
Qed.

Lemma preserves_current_figure m0 old :
  preserves (with_figure m0 old) current_figure.
Proof.
  intros st [Hm [g Hg]]. unfold current_figure.
  destruct (figures st) as [|a l] eqn:E.
  - destruct old; discriminate.
  - cbn [snd]. split; [exact Hm|]. exists g. congruence.
Qed.

Hint Resolve preserves_bind preserves_ret preserves_lift preserves_attr
     preserves_for_each preserves_on_axes preserves_on_current
     preserves_current_figure : frame.

Lemma preserves_colorbar m0 old :
  preserves (with_figure m0 old) plt_colorbar.
Proof.
  unfold plt_colorbar. apply preserves_bind; [auto with frame|].
  intros g. destruct (existsb is_image (artists g)); auto with frame.
Qed.

Lemma preserves_get_ticks m0 old (ax : Axis) :
  preserves (with_figure m0 old) (plt_get_ticks ax).
Proof. unfold plt_get_ticks. auto with frame. Qed.

Lemma preserves_scatterplot m0 old x y data hue style size :
  preserves (with_figure m0 old)
            (sns_scatterplot (length old) x y data hue style size).
Proof. unfold sns_scatterplot. auto 10 with frame. Qed.

Lemma preserves_plot m0 old xs ys label :
  preserves (with_figure m0 old) (ax_plot (length old) xs ys label).
Proof.
  unfold ax_plot. destruct (length xs =? length ys)%nat; auto with frame.
Qed.

Hint Resolve preserves_colorbar preserves_get_ticks preserves_scatterplot
     preserves_plot : frame.

Lemma drawn_before_raise m0 old e st :
  before_figure m0 old st -> drawn m0 old (Raise e) st.
Proof. intros [Hm _]. split; [exact Hm | discriminate]. Qed.

Lemma drawn_with_raise m0 old e st :
  with_figure m0 old st -> drawn m0 old (Raise e) st.
Proof. intros [Hm _]. split; [exact Hm | discriminate]. Qed.

Lemma drawn_return m0 old :
  triple (with_figure m0 old) (ret (length old)) (drawn m0 old).
Proof.
  apply triple_ret. intros st [Hm Hg]. split; [exact Hm|].
  intros fig [= <-]. now split.
Qed.

(** [plt.subplots] is where the new figure appears. *)
Lemma triple_subplots m0 old w h (k : nat -> M nat) :
  triple (with_figure m0 old) (k (length old)) (drawn m0 old) ->
  triple (before_figure m0 old) (fig <- plt_subplots w h ;; k fig)
         (drawn m0 old).
Proof.
  intros Hk st [Hm Hf]. destruct st as [m fs s].
  cbn [self figures] in Hm, Hf. subst m fs.
  rewrite run_subplots. apply Hk. split; [reflexivity|]. now eexists.
Qed.

(** A style context around a body changes neither the model nor the
    figures beyond what the body does. *)
Lemma triple_style_context m0 old style (body : M nat) :
  triple (before_figure m0 old) body (drawn m0 old) ->
  triple (before_figure m0 old) (style_context style body) (drawn m0 old).
Proof.
  intros Hb st HI. unfold style_context.
  destruct (style_available style).
  - specialize (Hb (set_rc_style style st) HI).
    destruct (body (set_rc_style style st)) as [r st']. exact Hb.
  - now apply drawn_before_raise.
Qed.

Lemma reads_and_draws_intro (c : M nat) :
  (forall m0 old, triple (before_figure m0 old) c (drawn m0 old)) ->
  reads_and_draws c.
Proof.
  intros Hc st.
  exact (Hc (self st) (figures st) st (conj eq_refl eq_refl)).
Qed.

(** One statement that keeps the invariant, then the rest. *)
Ltac frame_step :=
  first
    [ apply drawn_return
    | apply triple_style_context
    | apply triple_subplots
    | apply triple_bind_inv;
      [ solve [auto 10 with frame]
      | solve [ intros; apply drawn_before_raise; assumption
              | intros; apply drawn_with_raise; assumption ]
      | intros ? ] ].

(** C7. scatter_plot, loadings_plot and scree_plot leave the model
    object (pca, pc, loadings, dataset, scaling_method) as it was, and
    each call that returns hands back a chart that did not exist
    before. *)
Theorem plot_methods_read_only :
  (forall PC_x PC_y w h hue style label,
      reads_and_draws (scatter_plot PC_x PC_y w h hue style label))
  /\ (forall PC cr w h, reads_and_draws (loadings_plot PC cr w h))
  /\ (forall w h style, reads_and_draws (scree_plot w h style)).
Proof.
  split; [|split]; intros; apply reads_and_draws_intro; intros m0 old.
  - unfold scatter_plot, plt_legend, plt_xlabel, plt_ylabel, ax_text.
    repeat frame_step.
    apply triple_bind_inv;
      [ destruct label; auto 10 with frame
      | intros; now apply drawn_with_raise
      | intros _; apply drawn_return ].
  - unfold loadings_plot, plt_imshow, plt_set_ticks, ax_set_minor_locator,
      plt_xlabel, plt_ylabel, plt_title.
    repeat frame_step.
  - unfold scree_plot, ax_set_major_locator_integer, plt_set_ticks,
      plt_xlabel, plt_ylabel, plt_legend.
    repeat frame_step.
Qed.

End Frame.

(** ** Component indices outside 1..n *)

Section IndexErrors.
Context `{Float64} {MPL : Matplotlib}.

(** C2, as the code has it.  For a fitted model with n components:
    [scatter_plot] with PC_x or PC_y outside 1..n raises, with no check
    of its own, the error of the plotting library for the missing column
    "PC k" (a ValueError), before the axis label indexes [expl_var] -
    or, where matplotlib has no "seaborn" style sheet, the OSError of
    the style context, which comes first;
    [loadings_plot] raises the IndexError of the array access when
    PC > n or PC <= -n; for -n < PC <= 0 the array access does not
    raise: PC - 1 is a negative index and selects row n + PC - 1. *)
Theorem component_index_errors st first rest :
  fitted (self st) ->
  spectra (dataset (self st)) = first :: rest ->
  (forall PC_x PC_y w h hue style label,
      ~ 1 <= PC_x <= Z.of_nat (n_components_ (pca (self st)))
      \/ ~ 1 <= PC_y <= Z.of_nat (n_components_ (pca (self st))) ->
      fst (scatter_plot PC_x PC_y w h hue style label st)
      = Raise (if style_available "seaborn" then ValueError else OSError))
  /\ (forall PC cr w h,
         Z.of_nat (n_components_ (pca (self st))) < PC
         \/ PC <= - Z.of_nat (n_components_ (pca (self st))) ->
         loadings_plot PC cr w h st = (Raise IndexError, st))
  /\ (forall PC,
         - Z.of_nat (n_components_ (pca (self st))) < PC <= 0 ->
         exists v,
           row (loadings (self st)) (PC - 1) = Ok v
           /\ nth_error (loadings (self st))
                        (Z.to_nat
                           (Z.of_nat (n_components_ (pca (self st)))
                            + PC - 1))
              = Some v).
Proof.
  intros Hfit Hsp.
  pose proof Hfit as [Hratio Hload _ _ _].
  split; [|split].
  - intros PC_x PC_y w h hue style label Hout.
    destruct (style_available "seaborn") eqn:Hsty.
    + now apply scatter_plot_missing_column.
    + now rewrite scatter_plot_no_style.
  - intros PC cr w h Hout.
    eapply loadings_plot_row_raises.
    + eapply first_spectrum. exact Hsp.
    + unfold row. apply getitem_outside. rewrite Hload. lia.
  - intros PC HPC. unfold row.
    rewrite getitem_wrap by (rewrite Hload; lia).
    rewrite Hload.
    destruct (nth_error (loadings (self st))
                (Z.to_nat (Z.of_nat (n_components_ (pca (self st)))
                           + PC - 1))) as [v|] eqn:E.
    + exists v. split; [|reflexivity].
      apply getitem_inside; [lia|].
      now replace (PC - 1 + Z.of_nat (n_components_ (pca (self st))))
        with (Z.of_nat (n_components_ (pca (self st))) + PC - 1) by lia.
    + apply nth_error_None in E. lia.
Qed.

End IndexErrors.

(** ** More on the constructor *)

Section ConstructionEdges.
Context `{Float64} {CO : Collaborators}.

Lemma divide_row_single (r : list float) (w0 : float) :
  divide_row r [w0] = Ok (map (fun c => fdiv c w0) r).
Proof.
  unfold divide_row. destruct (length r =? length [w0])%nat eqn:E.
  - apply Nat.eqb_eq in E. destruct r as [|c [|c' r]]; try discriminate E.
    reflexivity.
  - reflexivity.
Qed.

Lemma divide_row_mismatch (r w : list float) :
  length r <> length w -> length w <> 1%nat -> length r <> 1%nat ->
  divide_row r w = Raise ValueError.
Proof.
  intros Hrw Hw Hr. unfold divide_row.
  destruct (Nat.eqb_spec (length r) (length w)); [contradiction|].
  destruct w as [|y [|y' w]]; [| exfalso; now apply Hw |];
    destruct r as [|x [|x' r]]; try reflexivity; exfalso; now apply Hr.
Qed.

(** X1. A fitted and transformed model whose scaling asks for descaling
    is still not constructed when the weights fit the components neither
    position by position nor by stretching a length of one: the division
    raises ValueError. *)
Theorem init_descaling_raises ds m kw b p s w r rest :
  BaseModel__init__ ds m = Ok b ->
  PCA_fit kw (bm_X b) = Ok p ->
  PCA_transform p (bm_X b) = Ok s ->
  bm_scaling_method b <> None ->
  m <> Some "standard"%string ->
  bm_weights b = Some w ->
  components_ p = r :: rest ->
  length r <> length w -> length w <> 1%nat -> length r <> 1%nat ->
  PCA_Model__init__ ds m kw = Raise ValueError.
Proof.
  intros Hb Hp Hs Hsm Hm Hw Hc Hrw Hw1 Hr1.
  rewrite (init_after_fit _ _ _ Hb Hp Hs).
  assert (Hcond : is_not_None (bm_scaling_method b) && py_ne m "standard"
                  = true).
  { apply andb_true_iff. split.
    - destruct (bm_scaling_method b); [reflexivity | contradiction].
    - destruct (py_ne m "standard") eqn:E; [reflexivity|].
      exfalso. apply Hm. now apply py_ne_standard. }
  rewrite Hcond.
  unfold get_weights. rewrite Hw. cbn [bind Monad_result rbind].
  unfold divide. rewrite Hc. cbn [mapM].
  now rewrite divide_row_mismatch by assumption.
Qed.

(** X2. With a single weight, numpy stretches it: every loading is the
    component entry divided by that one weight. *)
Theorem init_single_weight ds m kw b p s w0 :
  BaseModel__init__ ds m = Ok b ->
  PCA_fit kw (bm_X b) = Ok p ->
  PCA_transform p (bm_X b) = Ok s ->
  bm_scaling_method b <> None ->
  m <> Some "standard"%string ->
  bm_weights b = Some [w0] ->
  exists model,
    PCA_Model__init__ ds m kw = Ok model
    /\ loadings model
       = map (map (fun c => fdiv c w0)) (components_ (pca model)).
Proof.
  intros Hb Hp Hs Hsm Hm Hw.
  rewrite (init_after_fit _ _ _ Hb Hp Hs).
  assert (Hcond : is_not_None (bm_scaling_method b) && py_ne m "standard"
                  = true).
  { apply andb_true_iff. split.
    - destruct (bm_scaling_method b); [reflexivity | contradiction].
    - destruct (py_ne m "standard") eqn:E; [reflexivity|].
      exfalso. apply Hm. now apply py_ne_standard. }
  rewrite Hcond. unfold get_weights. rewrite Hw.
  cbn [bind Monad_result rbind]. unfold divide.
  rewrite (mapM_Ok_map (fun row => divide_row row [w0])
                       (map (fun c => fdiv c w0)))
    by (intros r _; apply divide_row_single).
  eexists. split; reflexivity.
Qed.

End ConstructionEdges.

(** ** More on scree_plot *)

Section ScreeSeries.
Context `{Float64} {MPL : Matplotlib}.

Lemma nth_error_cumsum_from (acc : float) (y : list float) (k : nat) :
  (k < length y)%nat ->
  nth_error (cumsum_from acc y) k
  = Some (fold_left fadd (firstn (S k) y) acc).
Proof.
  revert acc k. induction y as [|b y IH]; intros acc k Hk; [cbn in Hk; lia|].
  destruct k as [|k]; cbn [cumsum_from nth_error firstn fold_left].
  - reflexivity.
  - apply IH. cbn in Hk. lia.
Qed.

(** The k-th running sum is the sum of the first k + 1 entries. *)
Lemma nth_error_cumsum (y : list float) (k : nat) :
  (k < length y)%nat ->
  exists partial,
    sum_left (firstn (S k) y) = Some partial
    /\ nth_error (cumsum y) k = Some partial.
Proof.
  destruct y as [|a y]; intros Hk; [cbn in Hk; lia|].
  cbn [firstn sum_left cumsum]. eexists. split; [reflexivity|].
  destruct k as [|k]; [reflexivity|].
  cbn [nth_error]. apply nth_error_cumsum_from. cbn in Hk. lia.
Qed.

(** X3. The two lines of [scree_plot] have one point per component: at
    x = k the per-component line shows ratio k times 100 and the
    cumulative line the sum of ratios 1..k, added from the left, times
    100; the x ticks are fixed at 1..n without labels and the y axis keeps
    its integer locator. *)
Theorem scree_plot_series w h style m old s :
  length (explained_variance_ratio_ (pca m)) = n_components_ (pca m) ->
  style_available style = true ->
  exists g xs cumulative per_pc,
    scree_plot w h style (Build_Store m old s)
    = (Ok (length old), Build_Store m (old ++ [g]) s)
    /\ artists g = [ALine xs cumulative "cumulative";
                    ALine xs per_pc "per PC"]
    /\ xticks g = TFixed (map NInt xs) None
    /\ yticks g = TMaxN_integer
    /\ fig_style g = style
    /\ forall k r,
         nth_error (explained_variance_ratio_ (pca m)) k = Some r ->
         nth_error xs k = Some (Z.of_nat k + 1)
         /\ nth_error per_pc k = Some (fmul_int r 100)
         /\ exists partial,
              sum_left (firstn (S k) (explained_variance_ratio_ (pca m)))
              = Some partial
              /\ nth_error cumulative k = Some (fmul_int partial 100).
Proof.
  intros Hratio Hsty.
  eexists. eexists. eexists. eexists.
  split; [apply scree_plot_run; assumption|].
  split; [reflexivity|]. split; [reflexivity|]. split; [reflexivity|].
  split; [reflexivity|].
  intros k r Hk.
  assert (Hlt : (k < length (explained_variance_ratio_ (pca m)))%nat)
    by (apply nth_error_Some; congruence).
  split; [|split].
  - rewrite nth_error_range by lia. f_equal. lia.
  - rewrite nth_error_map, Hk. reflexivity.
  - destruct (nth_error_cumsum _ Hlt) as (partial & Hsum & Hnth).
    exists partial. split; [exact Hsum|].
    rewrite nth_error_map, Hnth. reflexivity.
Qed.

End ScreeSeries.

(** ** More on loadings_plot *)

Section LoadingsEdges.
Context `{Float64} {MPL : Matplotlib}.


End LoadingsEdges.

(** ** Pyplot's state across a call *)

Section FrameMore.
Context `{Float64} {MPL : Matplotlib}.

Lemma kept_before m0 old (r : result nat) st :
  before_figure m0 old st -> at_most_one_new old r st.
Proof. intros [_ Hf]. now left. Qed.

Lemma kept_with m0 old (r : result nat) st :
  with_figure m0 old st -> at_most_one_new old r st.
Proof. intros [_ Hg]. now right. Qed.

Lemma triple_subplots_any {A} m0 old w h (k : nat -> M A)
      (Q : result A -> Store -> Prop) :
  triple (with_figure m0 old) (k (length old)) Q ->
  triple (before_figure m0 old) (fig <- plt_subplots w h ;; k fig) Q.
Proof.
  intros Hk st [Hm Hf]. destruct st as [m fs s].
  cbn [self figures] in Hm, Hf. subst m fs.
  rewrite run_subplots. apply Hk. split; [reflexivity|]. now eexists.
Qed.

Lemma triple_style_context_kept m0 old style (body : M nat) :
  triple (before_figure m0 old) body (at_most_one_new old) ->
  triple (before_figure m0 old) (style_context style body)
         (at_most_one_new old).
Proof.
  intros Hb st HI. unfold style_context.
  destruct (style_available style).
  - specialize (Hb (set_rc_style style st) HI).
    destruct (body (set_rc_style style st)) as [r st']. exact Hb.
  - now apply (kept_before (m0 := m0)).
Qed.

Hint Resolve preserves_bind preserves_ret preserves_lift preserves_attr
     preserves_for_each preserves_on_axes preserves_on_current
     preserves_current_figure preserves_colorbar preserves_get_ticks
     preserves_scatterplot preserves_plot : frame.

Ltac kept_step m0 :=
  first
    [ apply triple_ret; intros; apply (kept_with (m0 := m0)); assumption
    | apply triple_style_context_kept
    | apply triple_subplots_any
    | apply triple_bind_inv;
      [ solve [auto 10 with frame]
      | solve [ intros; apply (kept_before (m0 := m0)); assumption
              | intros; apply (kept_with (m0 := m0)); assumption ]
      | intros ? ] ].

(** X6. Whether a plot method returns or raises, the figures that
    existed before the call are still there, in order and unchanged, and
    at most one figure has been added after them. *)
Theorem plot_methods_keep_figures :
  (forall PC_x PC_y w h hue style label,
      keeps_figures (scatter_plot PC_x PC_y w h hue style label))
  /\ (forall PC cr w h, keeps_figures (loadings_plot PC cr w h))
  /\ (forall w h style, keeps_figures (scree_plot w h style)).
Proof.
  assert (Hintro : forall c : M nat,
             (forall m0 old, triple (before_figure m0 old) c
                                    (at_most_one_new old)) ->
             keeps_figures c).
  { intros c Hc st.
    exact (Hc (self st) (figures st) st (conj eq_refl eq_refl)). }
  split; [|split]; intros; apply Hintro; intros m0 old.
  - unfold scatter_plot, plt_legend, plt_xlabel, plt_ylabel, ax_text.
    repeat kept_step m0.
    apply triple_bind_inv;
      [ destruct label; auto 10 with frame
      | intros; now apply (kept_with (m0 := m0))
      | intros _; apply triple_ret; intros;
        now apply (kept_with (m0 := m0)) ].
  - unfold loadings_plot, plt_imshow, plt_set_ticks, ax_set_minor_locator,
      plt_xlabel, plt_ylabel, plt_title.
    repeat kept_step m0.
  - unfold scree_plot, ax_set_major_locator_integer, plt_set_ticks,
      plt_xlabel, plt_ylabel, plt_legend.
    repeat kept_step m0.
Qed.

Lemma style_on_axes s0 fig (f : Figure -> Figure) :
  preserves (style_is s0) (on_axes fig f).
Proof. intros st Hs. exact Hs. Qed.

Lemma style_on_current s0 (f : Figure -> Figure) :
  preserves (style_is s0) (on_current f).
Proof.
  intros st Hs. unfold on_current. now destruct (figures st).
Qed.

Lemma style_current_figure s0 : preserves (style_is s0) current_figure.
Proof.
  intros st Hs. unfold current_figure. now destruct (figures st).
Qed.

Lemma style_subplots s0 w h : preserves (style_is s0) (plt_subplots w h).
Proof. intros st Hs. exact Hs. Qed.

Lemma style_style_context {A} s0 style (body : M A) :
  preserves (style_is s0) (style_context style body).
Proof.
  intros st Hs. unfold style_context.
  destruct (style_available style); [|exact Hs].
  destruct (body (set_rc_style style st)) as [r st']. exact Hs.
Qed.

Lemma preserves_if {A} (I : Store -> Prop) (b : bool) (c1 c2 : M A) :
  preserves I c1 -> preserves I c2 -> preserves I (if b then c1 else c2).
Proof. now destruct b. Qed.

Ltac style_step :=
  first
    [ apply preserves_ret | apply preserves_lift | apply preserves_attr
    | apply style_on_axes | apply style_on_current
    | apply style_current_figure | apply style_subplots
    | apply style_style_context
    | apply preserves_for_each; intros ?
    | apply preserves_if
    | apply preserves_bind; [|intros ?] ].

(** X7. After [scatter_plot], [loadings_plot] or [scree_plot], returned
    or raised, the active style sheet is the one that was active before:
    the style context of the first and the last is undone, and
    [loadings_plot] uses none. *)
Theorem plot_methods_restore_style :
  (forall PC_x PC_y w h hue style label,
      restores_style (scatter_plot PC_x PC_y w h hue style label))
  /\ (forall PC cr w h, restores_style (loadings_plot PC cr w h))
  /\ (forall w h style, restores_style (scree_plot w h style)).
Proof.
  assert (Hintro : forall c : M nat,
             (forall s0, preserves (style_is s0) c) -> restores_style c).
  { intros c Hc st. exact (Hc (rc_style st) st eq_refl). }
  split; [|split]; intros; apply Hintro; intros s0.
  - unfold scatter_plot. repeat style_step.
  - unfold loadings_plot, plt_imshow, plt_colorbar, plt_get_ticks,
      plt_set_ticks, ax_set_minor_locator, plt_xlabel, plt_ylabel, plt_title.
    repeat style_step.
  - unfold scree_plot. repeat style_step.
Qed.

End FrameMore.

(** ** More on scatter_plot *)

Section ScatterDetails.
Context `{Float64} {MPL : Matplotlib}.

Lemma column_of_Forall2 (data : ndarray2) (k : nat) :
  Forall (fun r => (k < length r)%nat) data ->
  Forall2 (fun r c => exists x, nth_error r k = Some x /\ c = CF x)
          data (column_of data k).
Proof.
  induction 1 as [|r data Hr _ IH]; [constructor|].
  unfold column_of in *. cbn [flat_map].
  destruct (nth_error r k) as [x|] eqn:E.
  - cbn [app]. constructor; [now exists x | exact IH].
  - apply nth_error_None in E. lia.
Qed.

Lemma nth_error_column_of (data : ndarray2) (k i : nat) (r : list float)
      (x : float) :
  Forall (fun r => (k < length r)%nat) data ->
  nth_error data i = Some r -> nth_error r k = Some x ->
  nth_error (column_of data k) i = Some (CF x).
Proof.
  intros Hall Hi Hk. pose proof (column_of_Forall2 Hall) as Hcol.
  revert i Hi. induction Hcol as [|r0 c data col [x0 [Hx0 ->]] _ IH];
    intros [|i] Hi; cbn [nth_error] in *; try discriminate.
  - injection Hi as ->. congruence.
  - inversion Hall; subst. now apply IH.
Qed.

Lemma assoc_row_exact (cols : list (string * list Cell)) (i : nat)
      (name : string) (col : list Cell) :
  Forall (fun nc => (i < length (snd nc))%nat) cols ->
  assoc name cols = Some col ->
  assoc name (flat_map (fun nc => match nth_error (snd nc) i with
                                  | Some c => [(fst nc, c)]
                                  | None => []
                                  end) cols)
  = nth_error col i.
Proof.
  induction 1 as [|[k col0] cols Hk _ IH]; cbn [assoc flat_map];
    [discriminate|].
  cbn [snd fst] in *.
  destruct (nth_error col0 i) as [c0|] eqn:E.
  - cbn [app assoc]. destruct (String.eqb name k).
    + now intros [= <-].
    + exact IH.
  - apply nth_error_None in E. lia.
Qed.

(** The cell of a row under a column name is the entry of that column at
    the row's position. *)
Lemma row_getitem_nth (df : DataFrame) (i : nat) (name : string)
      (col : list Cell) (c : Cell) :
  Forall (fun nc => length (snd nc) = df_index df) (df_columns df) ->
  (i < df_index df)%nat ->
  df_column df name = Ok col ->
  nth_error col i = Some c ->
  row_getitem (df_row df i) name = Ok c.
Proof.
  intros Hfull Hi Hcol Hc. unfold df_column in Hcol.
  destruct (assoc name (df_columns df)) as [col'|] eqn:E; [|discriminate].
  injection Hcol as ->.
  unfold row_getitem, df_row.
  rewrite (@assoc_row_exact (df_columns df) i name col).
  - now rewrite Hc.
  - eapply Forall_impl; [|exact Hfull]. intros nc Hnc. cbn beta in Hnc. lia.
  - exact E.
Qed.

Lemma label_loop_Forall2 (nx ny : string)
      (rows : list (list (string * Cell))) (texts : list Artist) m old s :
  Forall2 (fun point t =>
             exists px py ps, row_getitem point nx = Ok px
                              /\ row_getitem point ny = Ok py
                              /\ row_getitem point "Sample" = Ok ps
                              /\ t = AText px py ps) rows texts ->
  forall g,
    for_each rows
      (fun point =>
         px <- lift (row_getitem point nx) ;;
         py <- lift (row_getitem point ny) ;;
         ps <- lift (row_getitem point "Sample") ;;
         ax_text (length old) px py ps)
      (Build_Store m (old ++ [g]) s)
    = (Ok tt, Build_Store m (old ++ [draw_all texts g]) s).
Proof.
  induction 1 as [|point t rows texts (px & py & ps & Hpx & Hpy & Hps & ->) _ IH];
    intros g; [reflexivity|].
  cbn [for_each]. rewrite bind_assoc, (run_lift_Ok _ _ Hpx).
  rewrite bind_assoc, (run_lift_Ok _ _ Hpy).
  rewrite bind_assoc, (run_lift_Ok _ _ Hps).
  unfold ax_text. rewrite run_on_axes. apply IH.
Qed.

(** The run of [scatter_plot] with the texts of its annotation loop
    given. *)
Lemma scatter_plot_run_texts PC_x PC_y w h hue style label m old s
      hues styles vx vy texts :
  fitted m ->
  style_available "seaborn" = true ->
  1 <= PC_x <= Z.of_nat (n_components_ (pca m)) ->
  1 <= PC_y <= Z.of_nat (n_components_ (pca m)) ->
  df_column (score_frame m) hue = Ok hues ->
  df_column (score_frame m) style = Ok styles ->
  getitem (explained_variance_ratio_ (pca m)) (PC_x - 1) = Ok vx ->
  getitem (explained_variance_ratio_ (pca m)) (PC_y - 1) = Ok vy ->
  (label = true ->
   Forall2 (fun point t =>
              exists px py ps,
                row_getitem point (PC_name PC_x) = Ok px
                /\ row_getitem point (PC_name PC_y) = Ok py
                /\ row_getitem point "Sample" = Ok ps
                /\ t = AText px py ps)
           (iterrows (score_frame m)) texts) ->
  (label = false -> texts = []) ->
  scatter_plot PC_x PC_y w h hue style label (Build_Store m old s)
  = (Ok (length old),
     Build_Store m
       (old ++ [draw_all texts
                  (scatter_figure PC_x PC_y w h
                     (column_of (pc m) (Z.to_nat (PC_x - 1)))
                     (column_of (pc m) (Z.to_nat (PC_y - 1)))
                     hues styles (percent vx) (percent vy))]) s).
Proof.
  intros Hfit Hsty Hx Hy Hhue Hstyle Hvx Hvy Htexts Hnone.
  destruct Hfit as [Hratio Hload Hpc Hpos Hlab].
  set (g0 := scatter_figure PC_x PC_y w h
               (column_of (pc m) (Z.to_nat (PC_x - 1)))
               (column_of (pc m) (Z.to_nat (PC_y - 1)))
               hues styles (percent vx) (percent vy)).
  assert (Hloop :
             (if label then
                for_each (iterrows (score_frame m))
                  (fun point =>
                     px <- lift (row_getitem point (PC_name PC_x)) ;;
                     py <- lift (row_getitem point (PC_name PC_y)) ;;
                     ps <- lift (row_getitem point "Sample") ;;
                     ax_text (length old) px py ps)
              else ret tt) (Build_Store m (old ++ [g0]) "seaborn")
             = (Ok tt, Build_Store m (old ++ [draw_all texts g0]) "seaborn")).
  { destruct label.
    - apply label_loop_Forall2. now apply Htexts.
    - now rewrite (Hnone eq_refl). }
  unfold scatter_plot.
  rewrite run_attr, run_attr. cbn [self].
  assert (Hev := expl_var_Ok _ Hratio).
  rewrite (run_lift_Ok _ _ Hev).
  rewrite run_attr, run_attr. cbn [self].
  assert (Hdf := DataFrame_new_scores Hpc Hpos).
  rewrite (run_lift_Ok _ _ Hdf).
  rewrite run_attr. cbn [self].
  assert (Hs1 : forall cols,
             df_setitem {| df_index := nrows (pc m); df_columns := cols |}
                        "Sample" (map CS (samples (dataset m)))
             = Ok {| df_index := nrows (pc m);
                     df_columns := assoc_set "Sample"
                                     (map CS (samples (dataset m))) cols |}).
  { intros cols. unfold df_setitem. cbn [df_index df_columns].
    unfold nrows. rewrite length_map, (proj1 Hpc), Nat.eqb_refl.
    reflexivity. }
  rewrite (run_lift_Ok _ _ (Hs1 _)).
  rewrite run_attr. cbn [self].
  assert (Hs2 : forall cols,
             df_setitem {| df_index := nrows (pc m); df_columns := cols |}
                        "Label" (map CS (labels (dataset m)))
             = Ok {| df_index := nrows (pc m);
                     df_columns := assoc_set "Label"
                                     (map CS (labels (dataset m))) cols |}).
  { intros cols. unfold df_setitem. cbn [df_index df_columns].
    unfold nrows. rewrite length_map, (proj1 Hpc), Hlab, Nat.eqb_refl.
    reflexivity. }
  rewrite (run_lift_Ok _ _ (Hs2 _)).
  fold (score_frame m).
  rewrite (run_style_context_Ok "seaborn" _ _
             (st' := Build_Store m (old ++ [draw_all texts g0]) "seaborn")
             (r := Ok (length old)) Hsty); [reflexivity|].
  unfold set_rc_style. cbn [self figures rc_style].
  rewrite run_subplots.
  assert (Hcx : df_column (score_frame m) (PC_name PC_x)
                = Ok (column_of (pc m) (Z.to_nat (PC_x - 1))))
    by (apply df_column_PC; exact Hx).
  assert (Hcy : df_column (score_frame m) (PC_name PC_y)
                = Ok (column_of (pc m) (Z.to_nat (PC_y - 1))))
    by (apply df_column_PC; exact Hy).
  erewrite run_scatterplot; [|exact Hcx|exact Hcy|exact Hhue|exact Hstyle].
  unfold plt_legend. rewrite run_on_current.
  assert (Hpx := getitem_map percent _ _ Hvx).
  assert (Hpy := getitem_map percent _ _ Hvy).
  rewrite (run_lift_Ok _ _ Hpx).
  unfold plt_xlabel. rewrite run_on_current.
  rewrite (run_lift_Ok _ _ Hpy).
  unfold plt_ylabel. rewrite run_on_current.
  fold g0.
  erewrite run_bind_Ok; [|exact Hloop].
  reflexivity.
Qed.

Lemma draw_all_frame (texts : list Artist) (g : Figure) :
  figsize (draw_all texts g) = figsize g
  /\ legend (draw_all texts g) = legend g.
Proof.
  revert g. induction texts as [|a texts IH]; intros g;
    cbn [draw_all fold_left]; [now split|].
  destruct (IH (add_artist a g)) as [Hs Hl].
  unfold draw_all in *. now rewrite Hs, Hl.
Qed.

Lemma grouping_column (m : PCA_Model) (name : string) :
  name = "Label"%string \/ name = "Sample"%string ->
  df_column (score_frame m) name
  = Ok (map CS (if String.eqb name "Label" then labels (dataset m)
                else samples (dataset m))).
Proof.
  intros [-> | ->]; cbn [String.eqb Ascii.eqb Bool.eqb andb];
    [apply df_column_Label | apply df_column_Sample].
Qed.

Lemma fitted_rows_wide (m : PCA_Model) (x : Z) :
  fitted m -> 1 <= x <= Z.of_nat (n_components_ (pca m)) ->
  Forall (fun r => (Z.to_nat (x - 1) < length r)%nat) (pc m).
Proof.
  intros [_ _ [_ Hcols] _ _] Hx.
  eapply Forall_impl; [|exact Hcols]. intros r Hr. cbn beta in Hr. lia.
Qed.

(** X8. The points of [scatter_plot]: one per sample, in sample order,
    with the score of component PC_x as x and of component PC_y as y, and
    the labels or the sample names for colour and marker; the figure has
    the size asked for, the "seaborn" style and a white framed legend. *)
Theorem scatter_plot_points PC_x PC_y w h hue style label m old s :
  fitted m ->
  style_available "seaborn" = true ->
  1 <= PC_x <= Z.of_nat (n_components_ (pca m)) ->
  1 <= PC_y <= Z.of_nat (n_components_ (pca m)) ->
  hue = "Label"%string \/ hue = "Sample"%string ->
  style = "Label"%string \/ style = "Sample"%string ->
  exists g xs ys texts,
    scatter_plot PC_x PC_y w h hue style label (Build_Store m old s)
    = (Ok (length old), Build_Store m (old ++ [g]) s)
    /\ artists g
       = AScatter xs ys
           (map CS (if String.eqb hue "Label" then labels (dataset m)
                    else samples (dataset m)))
           (map CS (if String.eqb style "Label" then labels (dataset m)
                    else samples (dataset m)))
           100 :: texts
    /\ Forall2 (fun r c => exists x, nth_error r (Z.to_nat (PC_x - 1)) = Some x
                                     /\ c = CF x) (pc m) xs
    /\ Forall2 (fun r c => exists y, nth_error r (Z.to_nat (PC_y - 1)) = Some y
                                     /\ c = CF y) (pc m) ys
    /\ figsize g = Some (w, h)
    /\ fig_style g = "seaborn"%string
    /\ legend g = Some {| frameon := true; fancybox := true;
                          facecolor := "white" |}.
Proof.
  intros Hfit Hsty Hx Hy Hhue Hstyle.
  destruct (@scatter_plot_run _ _ PC_x PC_y w h hue style label m old s _ _
              Hfit Hsty Hx Hy
              (grouping_column m Hhue) (grouping_column m Hstyle))
    as (texts & vx & vy & _ & _ & Hrun).
  eexists. eexists. eexists. exists texts.
  split; [exact Hrun|].
  match goal with
  | |- context [draw_all texts ?g0] =>
      destruct (xlabel_draw_all texts g0) as (_ & _ & Hs & Ha);
      destruct (draw_all_frame texts g0) as (Hsz & Hl)
  end.
  rewrite Ha, Hs, Hsz, Hl.
  split; [reflexivity|].
  split; [apply column_of_Forall2; now apply fitted_rows_wide|].
  split; [apply column_of_Forall2; now apply fitted_rows_wide|].
  repeat split.
Qed.

Lemma Forall2_map_both {A B C} (R : B -> C -> Prop) (f : A -> B)
      (g : A -> C) (l : list A) :
  (forall a, In a l -> R (f a) (g a)) -> Forall2 R (map f l) (map g l).
Proof.
  induction l as [|a l IH]; intros HR; cbn [map]; constructor.
  - apply HR. now left.
  - apply IH. intros b Hb. apply HR. now right.
Qed.

(** X9. With [label] set, [scatter_plot] writes one text per sample
    after the points, in sample order: the sample's name at its scores
    for PC_x and PC_y; without [label] it writes none. *)
Theorem scatter_plot_annotations PC_x PC_y w h hue style label m old s :
  fitted m ->
  style_available "seaborn" = true ->
  1 <= PC_x <= Z.of_nat (n_components_ (pca m)) ->
  1 <= PC_y <= Z.of_nat (n_components_ (pca m)) ->
  hue = "Label"%string \/ hue = "Sample"%string ->
  style = "Label"%string \/ style = "Sample"%string ->
  exists g points texts,
    scatter_plot PC_x PC_y w h hue style label (Build_Store m old s)
    = (Ok (length old), Build_Store m (old ++ [g]) s)
    /\ artists g = points :: texts
    /\ (label = false -> texts = [])
    /\ (label = true ->
        length texts = length (samples (dataset m))
        /\ forall i r sample x y,
             nth_error (pc m) i = Some r ->
             nth_error (samples (dataset m)) i = Some sample ->
             nth_error r (Z.to_nat (PC_x - 1)) = Some x ->
             nth_error r (Z.to_nat (PC_y - 1)) = Some y ->
             nth_error texts i = Some (AText (CF x) (CF y) (CS sample))).
Proof.
  intros Hfit Hsty Hx Hy Hhue Hstyle.
  pose proof (score_frame_full Hfit) as Hfull.
  pose proof (fitted_rows_wide Hfit Hx) as Hwx.
  pose proof (fitted_rows_wide Hfit Hy) as Hwy.
  assert (Hrows : length (pc m) = length (samples (dataset m)))
    by (destruct Hfit as [_ _ [Hr _] _ _]; exact Hr).
  destruct (getitem_total (explained_variance_ratio_ (pca m)) (k := PC_x - 1))
    as [vx Hvx]; [destruct Hfit as [Hr _ _ _ _]; lia|].
  destruct (getitem_total (explained_variance_ratio_ (pca m)) (k := PC_y - 1))
    as [vy Hvy]; [destruct Hfit as [Hr _ _ _ _]; lia|].
  set (d := CS ""%string).
  set (colx := column_of (pc m) (Z.to_nat (PC_x - 1))).
  set (coly := column_of (pc m) (Z.to_nat (PC_y - 1))).
  set (names := map CS (samples (dataset m))).
  set (text_of := fun i => AText (nth i colx d) (nth i coly d) (nth i names d)).
  set (texts := if label then map text_of (seq 0 (length (pc m))) else []).
  assert (Hlx : length colx = length (pc m))
    by (apply length_column_of; exact Hwx).
  assert (Hly : length coly = length (pc m))
    by (apply length_column_of; exact Hwy).
  assert (Hln : length names = length (pc m))
    by (unfold names; rewrite length_map; congruence).
  eexists. eexists. exists texts. split.
  - apply (@scatter_plot_run_texts PC_x PC_y w h hue style label m old s
             _ _ vx vy texts Hfit Hsty
             Hx Hy (grouping_column m Hhue) (grouping_column m Hstyle)
             Hvx Hvy).
    + intros ->. unfold texts, iterrows.
      change (df_index (score_frame m)) with (length (pc m)).
      apply Forall2_map_both. intros i Hi. apply in_seq in Hi.
      exists (nth i colx d), (nth i coly d), (nth i names d).
      repeat split.
      * eapply row_getitem_nth;
          [ exact Hfull | cbn; unfold nrows; lia
          | apply df_column_PC; exact Hx
          | apply nth_error_nth'; fold colx; lia ].
      * eapply row_getitem_nth;
          [ exact Hfull | cbn; unfold nrows; lia
          | apply df_column_PC; exact Hy
          | apply nth_error_nth'; fold coly; lia ].
      * eapply row_getitem_nth;
          [ exact Hfull | cbn; unfold nrows; lia
          | apply df_column_Sample
          | apply nth_error_nth'; fold names; lia ].
    + intros ->. reflexivity.
  - match goal with
    | |- context [draw_all texts ?g0] =>
        destruct (xlabel_draw_all texts g0) as (_ & _ & _ & Ha)
    end.
    rewrite Ha. split; [reflexivity|]. split.
    + intros ->. reflexivity.
    + intros ->. unfold texts. split.
      * now rewrite length_map, length_seq.
      * intros i r sample x y Hi Hsample Hrx Hry.
        assert (Hlt : (i < length (pc m))%nat)
          by (apply nth_error_Some; congruence).
        rewrite nth_error_map, nth_error_seq.
        destruct (Nat.ltb_spec i (length (pc m))); [|lia].
        cbn [option_map Nat.add]. unfold text_of. f_equal.
        assert (Hcx : nth_error colx i = Some (CF x))
          by (eapply nth_error_column_of; eassumption).
        assert (Hcy : nth_error coly i = Some (CF y))
          by (eapply nth_error_column_of; eassumption).
        assert (Hn : nth_error names i = Some (CS sample))
          by (unfold names; rewrite nth_error_map, Hsample; reflexivity).
        rewrite (nth_error_nth colx i d Hcx), (nth_error_nth coly i d Hcy).
        now rewrite (nth_error_nth names i d Hn).
Qed.

(** X10. When there are scores and the data set has not one sample
    name and one label per row of them, the assignment of the column
    raises ValueError and [scatter_plot] ends before it makes a
    figure. *)
Theorem scatter_plot_names_mismatch PC_x PC_y w h hue style label st :
  length (explained_variance_ratio_ (pca (self st)))
  = n_components_ (pca (self st)) ->
  (0 < nrows (pc (self st)))%nat ->
  length (samples (dataset (self st))) <> nrows (pc (self st))
  \/ length (labels (dataset (self st))) <> nrows (pc (self st)) ->
  scatter_plot PC_x PC_y w h hue style label st = (Raise ValueError, st).
Proof.
  intros Hratio _ Hmis. unfold scatter_plot.
  rewrite run_attr, run_attr.
  rewrite (run_lift_Ok _ _ (expl_var_Ok _ Hratio)).
  rewrite run_attr, run_attr, DataFrame_new_names.
  destruct (ncols (pc (self st)) =? n_components_ (pca (self st)))%nat;
    [|reflexivity].
  rewrite (run_lift_Ok _ _ eq_refl), run_attr.
  unfold df_setitem at 1. cbn [df_index df_columns]. rewrite length_map.
  destruct (Nat.eqb_spec (length (samples (dataset (self st))))
                         (nrows (pc (self st)))) as [Es|Es]; [|reflexivity].
  rewrite (run_lift_Ok _ _ eq_refl), run_attr.
  unfold df_setitem at 1. cbn [df_index df_columns]. rewrite length_map.
  destruct (Nat.eqb_spec (length (labels (dataset (self st))))
                         (nrows (pc (self st)))) as [El|El]; [|reflexivity].
  destruct Hmis; contradiction.
Qed.

Lemma df_column_not_column (m : PCA_Model) (name : string) :
  ~ is_column m name -> df_column (score_frame m) name = Raise ValueError.
Proof.
  intros Hnot. unfold df_column, score_frame. cbn [df_columns].
  rewrite assoc_set_other
    by (intros ->; apply Hnot; right; now left).
  rewrite assoc_set_other by (intros ->; apply Hnot; now left).
  rewrite assoc_None; [reflexivity|].
  unfold score_columns. rewrite map_map. cbn [fst].
  intros Hin. apply in_map_iff in Hin. destruct Hin as (k & <- & Hk).
  apply in_seq in Hk. apply Hnot. right. right.
  exists (Z.of_nat (S k)). split; [lia | reflexivity].
Qed.

(** X11. Where matplotlib has the "seaborn" style sheet, a [hue] or
    [style] that names no column of the table ("PC 1" .. "PC n",
    "Sample", "Label") makes [scatter_plot] raise the ValueError of the
    plotting call. *)
Theorem scatter_plot_unknown_grouping PC_x PC_y w h hue style label
        m old s :
  fitted m ->
  style_available "seaborn" = true ->
  1 <= PC_x <= Z.of_nat (n_components_ (pca m)) ->
  1 <= PC_y <= Z.of_nat (n_components_ (pca m)) ->
  ~ is_column m hue \/ ~ is_column m style ->
  fst (scatter_plot PC_x PC_y w h hue style label (Build_Store m old s))
  = Raise ValueError.
Proof.
  intros Hfit Hsty Hx Hy Hgroup.
  destruct Hfit as [Hratio Hload Hpc Hpos Hlab].
  unfold scatter_plot.
  rewrite run_attr, run_attr. cbn [self].
  rewrite (run_lift_Ok _ _ (expl_var_Ok _ Hratio)).
  rewrite run_attr, run_attr. cbn [self].
  rewrite (run_lift_Ok _ _ (DataFrame_new_scores Hpc Hpos)).
  rewrite run_attr. cbn [self].
  unfold df_setitem at 1. cbn [df_index df_columns].
  unfold nrows at 1. rewrite length_map, (proj1 Hpc), Nat.eqb_refl.
  rewrite (run_lift_Ok _ _ eq_refl), run_attr. cbn [self].
  unfold df_setitem at 1. cbn [df_index df_columns].
  unfold nrows at 1. rewrite length_map, (proj1 Hpc), Hlab, Nat.eqb_refl.
  rewrite (run_lift_Ok _ _ eq_refl).
  fold (score_frame m).
  rewrite (run_style_context _ _ _ Hsty). cbn [fst].
  unfold set_rc_style. cbn [self figures rc_style].
  rewrite run_subplots.
  unfold sns_scatterplot. cbn [bind Monad_M lift].
  rewrite (df_column_PC m Hx), (df_column_PC m Hy).
  destruct (df_column (score_frame m) hue) as [hues|e] eqn:Eh.
  - destruct Hgroup as [Hh|Hs].
    + rewrite (df_column_not_column Hh) in Eh. discriminate.
    + now rewrite (df_column_not_column Hs).
  - apply df_column_Raise in Eh. now subst e.
Qed.

(** X12. Without the style sheet they ask for, [scatter_plot] (which
    asks for "seaborn") and [scree_plot] raise OSError and make no
    figure. *)
Theorem style_sheet_missing :
  (forall PC_x PC_y w h hue style label m old s,
      fitted m ->
      style_available "seaborn" = false ->
      scatter_plot PC_x PC_y w h hue style label (Build_Store m old s)
      = (Raise OSError, Build_Store m old s))
  /\ (forall w h style st,
         style_available style = false ->
         scree_plot w h style st = (Raise OSError, st)).
Proof.
  split.
  - intros PC_x PC_y w h hue style label m old s Hfit Hsty.
    destruct Hfit as [Hratio Hload Hpc Hpos Hlab].
    unfold scatter_plot.
    rewrite run_attr, run_attr. cbn [self].
    rewrite (run_lift_Ok _ _ (expl_var_Ok _ Hratio)).
    rewrite run_attr, run_attr. cbn [self].
    rewrite (run_lift_Ok _ _ (DataFrame_new_scores Hpc Hpos)).
    rewrite run_attr. cbn [self].
    unfold df_setitem at 1. cbn [df_index df_columns].
    unfold nrows at 1. rewrite length_map, (proj1 Hpc), Nat.eqb_refl.
    rewrite (run_lift_Ok _ _ eq_refl), run_attr. cbn [self].
    unfold df_setitem at 1. cbn [df_index df_columns].
    unfold nrows at 1. rewrite length_map, (proj1 Hpc), Hlab, Nat.eqb_refl.
    rewrite (run_lift_Ok _ _ eq_refl).
    unfold style_context. now rewrite Hsty.
  - intros w h style st Hsty. unfold scree_plot.
    rewrite run_attr, run_attr. unfold style_context. now rewrite Hsty.
Qed.

End ScatterDetails.

(** ** __repr__ *)

Section Repr.
Context `{Float64} {MPL : Matplotlib}.

Lemma append_cancel_l (a x y : string) :
  (a ++ x)%string = (a ++ y)%string -> x = y.
Proof.
  induction a as [|c a IH]; cbn [append]; [trivial|].
  intros [= E]. now apply IH.
Qed.

Lemma length_append (x y : string) :
  String.length (x ++ y) = (String.length x + String.length y)%nat.
Proof. induction x as [|c x IH]; cbn; [reflexivity | now rewrite IH]. Qed.

Lemma append_cancel_r (b x y : string) :
  (x ++ b)%string = (y ++ b)%string -> x = y.
Proof.
  revert y. induction x as [|c x IH]; intros [|c' y] E; cbn [append] in E.
  - reflexivity.
  - apply (f_equal String.length) in E. cbn in E.
    rewrite length_append in E. lia.
  - apply (f_equal String.length) in E. cbn in E.
    rewrite length_append in E. lia.
  - injection E as -> E. f_equal. now apply IH.
Qed.

(** X13. [__repr__] raises nothing and changes nothing; for one data
    set name two models print alike only if their scaling methods print
    alike, and so only if the methods are equal, as long as no method is
    the string "None" (which is how an absent method prints). *)
Theorem repr_tells_scaling :
  (forall st, exists text, PCA_Model__repr__ st = (Ok text, st))
  /\ (forall st1 st2,
         name (dataset (self st1)) = name (dataset (self st2)) ->
         fst (PCA_Model__repr__ st1) = fst (PCA_Model__repr__ st2) ->
         str_optional (scaling_method (self st1))
         = str_optional (scaling_method (self st2))
         /\ (scaling_method (self st1) <> Some "None"%string ->
             scaling_method (self st2) <> Some "None"%string ->
             scaling_method (self st1) = scaling_method (self st2))).
Proof.
  split.
  - intros st. eexists. reflexivity.
  - intros st1 st2 Hname Hrepr.
    unfold PCA_Model__repr__ in Hrepr.
    rewrite !run_attr in Hrepr. cbn [fst ret Monad_M] in Hrepr.
    injection Hrepr as Hrepr. rewrite Hname in Hrepr.
    apply append_cancel_l in Hrepr. injection Hrepr as Hrepr.
    apply (append_cancel_r (" scaling" ++ newline)) in Hrepr.
    split; [exact Hrepr|].
    intros H1 H2.
    destruct (scaling_method (self st1)) as [t1|],
             (scaling_method (self st2)) as [t2|];
      cbn [str_optional] in Hrepr; congruence.
Qed.

End Repr.

(** ** From the constructor to the plots *)

Section Composition.
Context `{Float64} {CO : Collaborators} {MPL : Matplotlib}.

Lemma length_elementwise_div (a : ndarray2) (w : ndarray1) :
  length (elementwise_div a w) = length a.
Proof. unfold elementwise_div. apply length_map. Qed.

(** X14. A model the constructor returns can be plotted.  When
    scikit-learn keeps to its shapes and the parent class hands over the
    data set it was given, one row of features per sample, a label per
    sample and, where descaling asks for them, one weight per feature,
    the constructor returns a model on which [scree_plot] returns a new
    figure for every available style and [scatter_plot] with its default
    components 1 and 2 and groupings "Label" returns one as soon as two
    components were fitted. *)
Theorem init_then_plots ds m kw b p s :
  sklearn_shapes ->
  BaseModel__init__ ds m = Ok b ->
  bm_dataset b = ds ->
  nrows (bm_X b) = length (samples ds) ->
  (0 < length (samples ds))%nat ->
  length (labels ds) = length (samples ds) ->
  (bm_scaling_method b <> None -> m <> Some "standard"%string ->
   exists w, bm_weights b = Some w /\ length w = ncols (bm_X b)) ->
  PCA_fit kw (bm_X b) = Ok p ->
  PCA_transform p (bm_X b) = Ok s ->
  exists model,
    PCA_Model__init__ ds m kw = Ok model
    /\ fitted model
    /\ (forall old st w h style,
          style_available style = true ->
          exists g,
            scree_plot w h style (Build_Store model old st)
            = (Ok (length old), Build_Store model (old ++ [g]) st))
    /\ (forall old st w h label,
          style_available "seaborn" = true ->
          (2 <= n_components_ (pca model))%nat ->
          exists g,
            scatter_plot 1 2 w h "Label" "Label" label
                         (Build_Store model old st)
            = (Ok (length old), Build_Store model (old ++ [g]) st)).
Proof.
  intros [Hfit Htrans] Hb Hds Hrows Hpos Hlab Hweights Hp Hs.
  destruct (Hfit _ _ _ Hp) as ([Hcomp Hwide] & Hratio & _).
  pose proof (Htrans _ _ _ Hs) as Hpc. rewrite Hrows in Hpc.
  assert (Hinit : exists l,
             PCA_Model__init__ ds m kw
             = Ok {| dataset := bm_dataset b;
                     scaling_method := bm_scaling_method b;
                     X := bm_X b; weights := bm_weights b;
                     pca := p; pc := s; loadings := l |}
             /\ length l = n_components_ p).
  { rewrite (init_after_fit _ _ _ Hb Hp Hs).
    destruct (is_not_None (bm_scaling_method b) && py_ne m "standard")
      eqn:Hcond.
    - apply andb_true_iff in Hcond. destruct Hcond as [Hnot Hne].
      destruct Hweights as (w & Hw & Hlw).
      + intros E. rewrite E in Hnot. discriminate Hnot.
      + intros E. apply py_ne_standard in E. congruence.
      + unfold get_weights. rewrite Hw. cbn [bind Monad_result rbind].
        rewrite divide_per_feature by (now rewrite Hlw).
        eexists. split; [reflexivity|].
        now rewrite length_elementwise_div.
    - eexists. split; [reflexivity | exact Hcomp]. }
  destruct Hinit as (l & Hinit & Hl).
  assert (Hfitted : fitted {| dataset := bm_dataset b;
                              scaling_method := bm_scaling_method b;
                              X := bm_X b; weights := bm_weights b;
                              pca := p; pc := s; loadings := l |}).
  { split; cbn [pca loadings pc dataset]; rewrite ?Hds; assumption. }
  eexists. split; [exact Hinit|]. split; [exact Hfitted|]. split.
  - intros old st w h style Hsty. eexists.
    apply scree_plot_run; [exact Hratio | exact Hsty].
  - intros old st w h label Hsty Htwo.
    cbn [pca n_components_] in Htwo.
    assert (H1 : 1 <= 1 <= Z.of_nat (n_components_ p)) by lia.
    assert (H2 : 1 <= 2 <= Z.of_nat (n_components_ p)) by lia.
    destruct (@scatter_plot_run _ _ 1 2 w h "Label" "Label" label _ old st
                _ _ Hfitted Hsty H1 H2
                (grouping_column _ (or_introl eq_refl))
                (grouping_column _ (or_introl eq_refl)))
      as (texts & vx & vy & _ & _ & Hrun).
    eexists. exact Hrun.
Qed.

End Composition.

(** ** The properties on the exact instance *)

Module ExactFacts.
Import Exact.

Lemma Float64_order_Q : Float64_order.
Proof.
  split; cbn [fle fadd fmul_int fzero Float64_Q].
  - intros a b c. apply Qle_trans.
  - intros a b _ Hb. rewrite Qred_correct.
    rewrite <- (Qplus_0_r a) at 1.
    apply Qplus_le_compat; [apply Qle_refl | exact Hb].
  - intros a b Hab. rewrite !Qred_correct.
    apply Qmult_le_compat_r; [exact Hab | discriminate].
Qed.

(** The order laws also hold of the arithmetic with a NaN. *)
Lemma Float64_order_nan : @Float64_order Float64_nan.
Proof.
  split; cbn [fle fadd fmul_int fzero Float64_nan].
  - intros [a|] [b|] [c|]; cbn [nan_le]; try contradiction.
    apply Qle_trans.
  - intros [a|] [b|]; cbn [nan_le nan_lift]; try contradiction.
    intros _ Hb. rewrite Qred_correct.
    rewrite <- (Qplus_0_r a) at 1.
    apply Qplus_le_compat; [apply Qle_refl | exact Hb].
  - intros [a|] [b|]; cbn [nan_le option_map]; try contradiction.
    intros Hab. rewrite !Qred_correct.
    apply Qmult_le_compat_r; [exact Hab | discriminate].
Qed.

Lemma fitted_model_nan : @fitted Float64_nan model_nan.
Proof.
  split; try reflexivity.
  - split; [reflexivity | repeat constructor].
  - cbn. lia.
Qed.

Lemma length_unit_row (width i : nat) : length (unit_row width i) = width.
Proof. unfold unit_row. now rewrite length_map, length_seq. Qed.

(** The stand-in estimator keeps to scikit-learn's shapes. *)
Lemma sklearn_shapes_demo : sklearn_shapes.
Proof.
  split.
  - intros kw X p. cbn [PCA_fit Collaborators_demo]. unfold demo_fit.
    destruct (assoc "n_components" kw) as [[| k | |]|]; try discriminate.
    destruct ((0 <=? k)%Z && (k <=? Z.of_nat (Nat.min (nrows X) (ncols X)))%Z)
      eqn:E; [|discriminate].
    intros [= <-]. cbn [n_components_ components_ explained_variance_ratio_].
    split; [split|split].
    + now rewrite length_map, length_seq.
    + apply Forall_map, Forall_forall. intros i _. apply length_unit_row.
    + now rewrite length_map, length_seq.
    + intros n [= ->]. apply Nat2Z.id.
  - intros p X s. cbn [PCA_transform Collaborators_demo].
    unfold demo_transform.
    destruct (forallb (fun r => (n_components_ p <=? length r)%nat) X)
      eqn:E; [|discriminate].
    intros [= <-]. split.
    + unfold nrows. now rewrite length_map.
    + apply Forall_map, Forall_forall. intros r Hr.
      rewrite forallb_forall in E. specialize (E r Hr).
      apply Nat.leb_le in E. cbn beta. rewrite length_firstn.
      now apply Nat.min_l.
Qed.

Lemma fitted_model0 : fitted model0.
Proof.
  split; try reflexivity.
  - split; [reflexivity | repeat constructor].
  - cbn. lia.
Qed.

End ExactFacts.

(** ** The theorems at concrete models *)

Import Exact ExactFacts.

(** The constructor on the three 2 x 3 spectra, "pareto" scaling, two
    components: the loadings are the components over the weights. *)
Lemma init_loadings_descaled_pareto :
  exists model,
    PCA_Model__init__ dataset0 (Some "pareto"%string) kw2 = Ok model
    /\ loadings model
       = [[1 # 2; 0; 0; 0; 0; 0]; [0; 1 # 2; 0; 0; 0; 0]]%Q.
Proof.
  destruct (@init_loadings_descaled Float64_Q Collaborators_demo
              dataset0 (Some "pareto"%string) kw2 _ _ _
              sklearn_shapes_demo eq_refl eq_refl eq_refl eq_refl)
    as [_ Hdiv].
  destruct (Hdiv ltac:(discriminate) ltac:(discriminate)
                 (repeat 2%Q 6) eq_refl eq_refl)
    as (model & Hinit & _ & _ & Hload).
  exists model. split; [exact Hinit|].
  rewrite Hload. injection Hinit as <-. reflexivity.
Defined.

(** The 10 x 50 scenario on ten spectra of 5 x 10 points. *)
Lemma init_shapes_10x50_demo :
  exists model,
    PCA_Model__init__ dataset_10x50 (Some "auto"%string) kw3 = Ok model
    /\ n_components_ (pca model) = 3%nat
    /\ has_shape (pc model) 10 3
    /\ has_shape (loadings model) 3 50.
Proof.
  eapply (@init_shapes_10x50 Float64_Q Collaborators_demo dataset_10x50 kw3
            _ (repeat 2%Q 50)).
  - exact sklearn_shapes_demo.
  - reflexivity.
  - reflexivity.
  - split; [reflexivity | repeat constructor].
  - reflexivity.
  - reflexivity.
  - reflexivity.
  - reflexivity.
  - reflexivity.
Defined.

(** Loadings of five entries against a grid of 2 x 3: the reshape
    raises and no run returns. *)
Lemma loadings_plot_needs_grid_demo :
  loadings_plot 1 (1 # 10)%Q 9 10 store_five = (Raise ValueError, store_five)
  /\ (forall fig st',
        loadings_plot 1 (1 # 10)%Q 9 10 store_five <> (Ok fig, st')).
Proof.
  destruct (@loadings_plot_needs_grid Float64_Q Matplotlib_small store_five
              1 (1 # 10)%Q 9 10 spectrum0 [spectrum0; spectrum0]
              [1 # 2; 0; 1 # 2; 0; 1 # 2]%Q eq_refl ltac:(lia) eq_refl)
    as [Honly Herr].
  split.
  - apply Herr. discriminate.
  - intros fig st' Hrun. discriminate (Honly fig st' Hrun).
Defined.

Lemma scatter_plot_axis_percent_demo :
  exists g rx ry,
    scatter_plot 1 2 9 8 "Label" "Sample" true store0
    = (Ok 0%nat, Build_Store model0 [g] "default")
    /\ getitem [5 # 8; 1 # 4]%Q (1 - 1) = Ok rx
    /\ getitem [5 # 8; 1 # 4]%Q (2 - 1) = Ok ry
    /\ xlabel g
       = Some (("PC " ++ str 1 ++ " ("
                  ++ fmt_float (round_nd (fmul_int rx 100) 1)
                  ++ " % of variance)")%string, None)
    /\ ylabel g
       = Some (("PC " ++ str 2 ++ " ("
                  ++ fmt_float (round_nd (fmul_int ry 100) 1)
                  ++ " % of variance)")%string, None).
Proof.
  apply (@scatter_plot_axis_percent Float64_Q Matplotlib_small 1 2 9 8 "Label" "Sample" true
           model0 [] "default" fitted_model0 eq_refl).
  - cbn. lia.
  - cbn. lia.
  - now left.
  - now right.
Defined.

Lemma scree_plot_cumulative_demo :
  exists g cumulative per_pc,
    scree_plot 9 8 "seaborn" store0
    = (Ok 0%nat, Build_Store model0 [g] "default")
    /\ artists g
       = [ALine (range 1 (2 + 1)) cumulative "cumulative";
          ALine (range 1 (2 + 1)) per_pc "per PC"]
    /\ cumulative
       = map (fun v => fmul_int v 100) (cumsum [5 # 8; 1 # 4]%Q)
    /\ length cumulative = 2%nat
    /\ Sorted fle cumulative
    /\ (forall total,
          sum_left [5 # 8; 1 # 4]%Q = Some total ->
          exists front, cumulative = front ++ [fmul_int total 100]).
Proof.
  destruct (@scree_plot_cumulative Float64_Q Matplotlib_small 9 8
              "seaborn" model0 [] "default" eq_refl eq_refl)
    as (g & cumulative & per_pc & Hrun & Hart & Hcum & Hlen & Hup & Hlast).
  exists g, cumulative, per_pc.
  split; [exact Hrun|]. split; [exact Hart|]. split; [exact Hcum|].
  split; [exact Hlen|]. split; [|exact Hlast].
  apply Hup; [exact Float64_order_Q | repeat constructor; discriminate].
Defined.

(** C5 as it was stated fails on the model without variance: it is
    fitted, [scree_plot] returns its chart, and the cumulative series,
    NaN after NaN, is not non-decreasing. *)
Lemma scree_plot_nan_not_monotone :
  @fitted Float64_nan model_nan
  /\ exists g cumulative per_pc,
       scree_plot (MPL := Matplotlib_nan) 9 8 "seaborn" store_nan
       = (Ok 0%nat, Build_Store model_nan [g] "default")
       /\ artists g = [ALine [1; 2]%Z cumulative "cumulative";
                       ALine [1; 2]%Z per_pc "per PC"]
       /\ ~ Sorted fle cumulative.
Proof.
  split; [exact fitted_model_nan|].
  eexists. exists [None; None], [None; None].
  split; [|split].
  - apply (@scree_plot_run Float64_nan Matplotlib_nan 9 8 "seaborn"
             model_nan [] "default" eq_refl eq_refl).
  - reflexivity.
  - intros Hs. inversion Hs as [|a l _ Hhd]; subst.
    inversion Hhd as [|b l' Hab]; subst. exact Hab.
Qed.




(** C2 as it was stated fails on the demo model: 0 is outside 1..2 and
    [loadings_plot] with PC = 0 returns a chart. *)
Lemma loadings_plot_zero_returns :
  fitted model0
  /\ n_components_ (pca model0) = 2%nat
  /\ ~ 1 <= 0 <= 2
  /\ exists st', loadings_plot 0 (1 # 10)%Q 9 10 store0 = (Ok 0%nat, st').
Proof.
  split; [exact fitted_model0|]. split; [reflexivity|]. split; [lia|].
  eexists.
  eapply (@loadings_plot_run Float64_Q Matplotlib_small 0 (1 # 10)%Q 9 10
            model0 [] "default" spectrum0); reflexivity.
Qed.

(** Indices outside 1..2 on the demo model, and index 0 where the
    "seaborn" style sheet is missing. *)
Lemma component_index_errors_demo :
  fst (scatter_plot 0 2 9 8 "Label" "Label" false store0) = Raise ValueError
  /\ fst (scatter_plot 1 3 9 8 "Label" "Label" false store0)
     = Raise ValueError
  /\ fst (scatter_plot (MPL := Matplotlib_plain)
            0 2 9 8 "Label" "Label" false store0)
     = Raise OSError
  /\ loadings_plot 3 (1 # 10)%Q 9 10 store0 = (Raise IndexError, store0)
  /\ loadings_plot (-2) (1 # 10)%Q 9 10 store0 = (Raise IndexError, store0)
  /\ exists v, row (loadings model0) (-1 - 1) = Ok v
               /\ nth_error (loadings model0) 0 = Some v.
Proof.
  destruct (@component_index_errors Float64_Q Matplotlib_small store0
              spectrum0 [spectrum0; spectrum0]
              fitted_model0 eq_refl) as (Hsc & Hlo & Hwrap).
  split; [apply (Hsc 0 2 9 8 "Label" "Label" false)%string; left; cbn; lia|].
  split; [apply (Hsc 1 3 9 8 "Label" "Label" false)%string; right; cbn; lia|].
  split.
  { apply (proj1 (@component_index_errors Float64_Q Matplotlib_plain store0
                    spectrum0 [spectrum0; spectrum0] fitted_model0 eq_refl)
                 0 2 9 8 "Label" "Label" false)%string.
    left. cbn. lia. }
  split; [apply Hlo; left; cbn; lia|].
  split; [apply Hlo; right; cbn; lia|].
  apply (Hwrap (-1)). cbn. lia.
Defined.

(** Two weights for the six features of the demo data. *)
Lemma init_descaling_raises_demo :
  PCA_Model__init__ (CO := Collaborators_short)
    dataset0 (Some "pareto"%string) kw2
  = Raise ValueError.
Proof.
  eapply (@init_descaling_raises Float64_Q Collaborators_short
            dataset0 (Some "pareto"%string) kw2 _ _ _ [2; 2]%Q _ _
            eq_refl eq_refl eq_refl).
  - discriminate.
  - discriminate.
  - reflexivity.
  - reflexivity.
  - cbn. lia.
  - cbn. lia.
  - cbn. lia.
Defined.

(** One weight, 4, for the six features. *)
Lemma init_single_weight_demo :
  exists model,
    PCA_Model__init__ (CO := Collaborators_short)
      dataset0 (Some "auto"%string) kw2 = Ok model
    /\ loadings model
       = map (map (fun c => fdiv c 4%Q)) (components_ (pca model)).
Proof.
  apply (@init_single_weight Float64_Q Collaborators_short
           dataset0 (Some "auto"%string) kw2 _ _ _ 4%Q
           eq_refl eq_refl eq_refl).
  - discriminate.
  - discriminate.
  - reflexivity.
Defined.

(** The two lines of the scree plot of the demo model. *)
Lemma scree_plot_series_demo :
  exists g xs cumulative per_pc,
    scree_plot 9 8 "seaborn" store0
    = (Ok 0%nat, Build_Store model0 [g] "default")
    /\ artists g = [ALine xs cumulative "cumulative";
                    ALine xs per_pc "per PC"]
    /\ xticks g = TFixed (map NInt xs) None
    /\ yticks g = TMaxN_integer
    /\ fig_style g = "seaborn"%string
    /\ forall k r,
         nth_error (explained_variance_ratio_ (pca model0)) k = Some r ->
         nth_error xs k = Some (Z.of_nat k + 1)
         /\ nth_error per_pc k = Some (fmul_int r 100)
         /\ exists partial,
              sum_left (firstn (S k) (explained_variance_ratio_ (pca model0)))
              = Some partial
              /\ nth_error cumulative k = Some (fmul_int partial 100).
Proof.
  apply (@scree_plot_series Float64_Q Matplotlib_small 9 8 "seaborn"
           model0 [] "default" eq_refl eq_refl).
Defined.


(** The points of the demo model, coloured by label and marked by
    sample. *)
Lemma scatter_plot_points_demo :
  exists g xs ys texts,
    scatter_plot 1 2 9 8 "Label" "Sample" true store0
    = (Ok 0%nat, Build_Store model0 [g] "default")
    /\ artists g
       = AScatter xs ys
           (map CS (if String.eqb "Label" "Label"
                    then labels (dataset model0)
                    else samples (dataset model0)))
           (map CS (if String.eqb "Sample" "Label"
                    then labels (dataset model0)
                    else samples (dataset model0)))
           100 :: texts
    /\ Forall2 (fun r c => exists x, nth_error r (Z.to_nat (1 - 1)) = Some x
                                     /\ c = CF x) (pc model0) xs
    /\ Forall2 (fun r c => exists y, nth_error r (Z.to_nat (2 - 1)) = Some y
                                     /\ c = CF y) (pc model0) ys
    /\ figsize g = Some (9, 8)
    /\ fig_style g = "seaborn"%string
    /\ legend g = Some {| frameon := true; fancybox := true;
                          facecolor := "white" |}.
Proof.
  apply (@scatter_plot_points Float64_Q Matplotlib_small
           1 2 9 8 "Label" "Sample" true model0 [] "default"
           fitted_model0 eq_refl).
  - cbn. lia.
  - cbn. lia.
  - now left.
  - now right.
Defined.

(** The three sample names written at their scores. *)
Lemma scatter_plot_annotations_demo :
  exists g points texts,
    scatter_plot 2 1 9 8 "Sample" "Label" true store0
    = (Ok 0%nat, Build_Store model0 [g] "default")
    /\ artists g = points :: texts
    /\ (true = false -> texts = [])
    /\ (true = true ->
        length texts = length (samples (dataset model0))
        /\ forall i r sample x y,
             nth_error (pc model0) i = Some r ->
             nth_error (samples (dataset model0)) i = Some sample ->
             nth_error r (Z.to_nat (2 - 1)) = Some x ->
             nth_error r (Z.to_nat (1 - 1)) = Some y ->
             nth_error texts i = Some (AText (CF x) (CF y) (CS sample))).
Proof.
  apply (@scatter_plot_annotations Float64_Q Matplotlib_small
           2 1 9 8 "Sample" "Label" true model0 [] "default"
           fitted_model0 eq_refl).
  - cbn. lia.
  - cbn. lia.
  - now right.
  - now left.
Defined.

(** Two sample names for three rows of scores. *)
Lemma scatter_plot_names_mismatch_demo :
  scatter_plot 1 2 9 8 "Label" "Label" false store_short
  = (Raise ValueError, store_short).
Proof.
  apply (@scatter_plot_names_mismatch Float64_Q Matplotlib_small
           1 2 9 8 "Label" "Label" false store_short eq_refl).
  - cbn. lia.
  - left. cbn. lia.
Defined.

(** "Group" is no column of the table of the demo model. *)
Lemma scatter_plot_unknown_grouping_demo :
  fst (scatter_plot 1 2 9 8 "Group" "Label" false store0)
  = Raise ValueError.
Proof.
  apply (@scatter_plot_unknown_grouping Float64_Q Matplotlib_small
           1 2 9 8 "Group" "Label" false model0 [] "default"
           fitted_model0 eq_refl).
  - cbn. lia.
  - cbn. lia.
  - left. intros [E | [E | (k & _ & E)]]; discriminate E.
Defined.

(** A matplotlib that has only the "default" style sheet. *)
Lemma style_sheet_missing_demo :
  scatter_plot (MPL := Matplotlib_plain) 1 2 9 8 "Label" "Label" false store0
  = (Raise OSError, store0)
  /\ scree_plot (MPL := Matplotlib_plain) 9 8 "seaborn" store0
     = (Raise OSError, store0).
Proof.
  split.
  - apply (proj1 (@style_sheet_missing Float64_Q Matplotlib_plain)
             1 2 9 8 "Label"%string "Label"%string false
             model0 [] "default"%string fitted_model0 eq_refl).
  - apply (proj2 (@style_sheet_missing Float64_Q Matplotlib_plain)
             9 8 "seaborn"%string store0 eq_refl).
Defined.

(** Two models that print alike: the demo model and the one over the
    shorter data set of the same name. *)
Lemma repr_tells_scaling_demo :
  model0 <> model_short
  /\ str_optional (scaling_method model0)
     = str_optional (scaling_method model_short)
  /\ scaling_method model0 = scaling_method model_short.
Proof.
  split; [intros E; discriminate (f_equal (fun m => samples (dataset m)) E)|].
  destruct (proj2 (@repr_tells_scaling Float64_Q) store0 store_short
              eq_refl eq_refl) as [Hprint Hsame].
  split; [exact Hprint|].
  apply Hsame; discriminate.
Defined.

(** The constructor on the demo data, then the two plots. *)
Lemma init_then_plots_demo :
  exists model,
    PCA_Model__init__ dataset0 (Some "pareto"%string) kw2 = Ok model
    /\ fitted model
    /\ (forall old st w h style,
          style_available style = true ->
          exists g,
            scree_plot w h style (Build_Store model old st)
            = (Ok (length old), Build_Store model (old ++ [g]) st))
    /\ (forall old st w h label,
          style_available "seaborn" = true ->
          (2 <= n_components_ (pca model))%nat ->
          exists g,
            scatter_plot 1 2 w h "Label" "Label" label
                         (Build_Store model old st)
            = (Ok (length old), Build_Store model (old ++ [g]) st)).
Proof.
  eapply (@init_then_plots Float64_Q Collaborators_demo Matplotlib_small
            dataset0 (Some "pareto"%string) kw2 _ _ _
            sklearn_shapes_demo eq_refl eq_refl eq_refl).
  - cbn. lia.
  - reflexivity.
  - intros _ _. exists (repeat 2%Q 6). split; reflexivity.
  - reflexivity.
  - reflexivity.
Defined.
